(** * EDINET viewer: screening, comparison and text search

    A shallow embedding of the query layer ([db_helper.py]) and of the
    data-frame logic of the screening and comparison pages
    ([pages/04_Screening.py], [pages/03_Compare.py]), together with the
    properties the specification states about them.

    Conventions.
    - A Python [str] is a Rocq [string] holding its UTF-8 bytes.
    - A numeric data-frame cell is an [f64]: pandas stores a nullable
      numeric column as float64 with NaN for NULL.  A finite cell is the
      rational number it denotes; NaN and the two infinities behave as
      IEEE-754 prescribes (signed zeros are not distinguished).
    - Arithmetic on finite cells comes in two forms.  [fdiv], [fmul] and
      [fround1] compute the exact result and serve where a property
      holds whatever the rounding.  [fdiv_in], [fmul_in] and
      [fround1_in] take the binary64 results from a [float_ops], about
      which nothing is assumed, and serve where a property is about the
      computed number itself; [binary64_ops] is the arithmetic of
      binary64, [exact_ops] the one without rounding.
    - A SQL query is given its denotation over the table it reads, a
      list of records. *)

From Stdlib Require Import List Bool Arith ZArith QArith Qround Qabs Lia Lqa.
From Stdlib Require Import String Ascii Permutation Sorted OrderedTypeEx.
From Stdlib Require PrimFloat SpecFloat FloatOps Uint63.
Import ListNotations.

Local Open Scope Z_scope.
Local Open Scope Q_scope.
Local Open Scope string_scope.
Local Open Scope list_scope.
Local Open Scope bool_scope.

(* ================================================================= *)
(** ** Floating-point cells *)

Inductive f64 : Type :=
| NaN
| Inf (neg : bool)
| Fin (q : Q).

(** [None] (SQL NULL) becomes NaN in a float64 column. *)
Definition to_f64 (v : option Q) : f64 :=
  match v with
  | Some q => Fin q
  | None => NaN
  end.

(** [pd.isna] / [pd.notna]: infinities are not null. *)
Definition isna (x : f64) : bool :=
  match x with
  | NaN => true
  | _ => false
  end.

Definition notna (x : f64) : bool := negb (isna x).

Definition Qzero (q : Q) : bool := Qeq_bool q 0.
Definition Qneg (q : Q) : bool := (Qnum q <? 0)%Z.

(** IEEE-754 division: a finite non-zero value over zero is a signed
    infinity, zero over zero is NaN, nothing raises. *)
Definition fdiv (a b : f64) : f64 :=
  match a, b with
  | NaN, _ => NaN
  | _, NaN => NaN
  | Fin x, Fin y =>
      if Qzero y then (if Qzero x then NaN else Inf (Qneg x))
      else Fin (x / y)
  | Fin _, Inf _ => Fin 0
  | Inf s, Fin y => Inf (xorb s (Qneg y))
  | Inf _, Inf _ => NaN
  end.

Definition fmul (a b : f64) : f64 :=
  match a, b with
  | NaN, _ => NaN
  | _, NaN => NaN
  | Fin x, Fin y => Fin (x * y)
  | Inf s, Fin y => if Qzero y then NaN else Inf (xorb s (Qneg y))
  | Fin x, Inf s => if Qzero x then NaN else Inf (xorb s (Qneg x))
  | Inf s, Inf t => Inf (xorb s t)
  end.

Definition fabs (a : f64) : f64 :=
  match a with
  | NaN => NaN
  | Inf _ => Inf false
  | Fin x => Fin (Qabs x)
  end.

(** Round half to even, to the nearest integer. *)
Definition rint (q : Q) : Z :=
  let f := Qfloor q in
  match Qcompare (q - inject_Z f) (1 # 2) with
  | Lt => f
  | Gt => (f + 1)%Z
  | Eq => if Z.even f then f else (f + 1)%Z
  end.

(** One decimal place: scale by ten, round, scale back. *)
Definition Qround1 (q : Q) : Q := inject_Z (rint (q * 10)) / 10.

(** [Series.round(1)]. *)
Definition fround1 (a : f64) : f64 :=
  match a with
  | Fin x => Fin (Qround1 x)
  | other => other
  end.

(** [a <= b]; every comparison with NaN is false. *)
Definition fle (a b : f64) : bool :=
  match a, b with
  | NaN, _ => false
  | _, NaN => false
  | Inf true, _ => true
  | _, Inf false => true
  | Inf false, _ => false
  | _, Inf true => false
  | Fin x, Fin y => Qle_bool x y
  end.

Definition fge (a b : f64) : bool := fle b a.

Definition flt (a b : f64) : bool :=
  match a, b with
  | NaN, _ => false
  | _, NaN => false
  | _, _ => negb (fle b a)
  end.

Definition fgt (a b : f64) : bool := flt b a.

(** Python truthiness of a number: zero is false, NaN is true. *)
Definition truthy (a : f64) : bool :=
  match a with
  | Fin x => negb (Qzero x)
  | _ => true
  end.

(* ================================================================= *)
(** ** Binary64 results

    On finite operands a float64 division or multiplication returns the
    exact result rounded to the nearest binary64 number, or an infinity
    when that overflows.  A [float_ops] holds these two operations;
    nothing is assumed about them, so what is proved for every
    [float_ops] holds of the arithmetic pandas computes with.  What
    IEEE-754 fixes outside the finite operands (NaN, the infinities,
    division by zero) is written out. *)
Record float_ops : Type := mkFloatOps {
  div64 : Q -> Q -> f64;   (* x / y for finite x and finite non-zero y *)
  mul64 : Q -> Q -> f64    (* x * y for finite x and y *)
}.

Definition fdiv_in (o : float_ops) (a b : f64) : f64 :=
  match a, b with
  | NaN, _ => NaN
  | _, NaN => NaN
  | Fin x, Fin y =>
      if Qzero y then (if Qzero x then NaN else Inf (Qneg x))
      else div64 o x y
  | Fin _, Inf _ => Fin 0
  | Inf s, Fin y => Inf (xorb s (Qneg y))
  | Inf _, Inf _ => NaN
  end.

Definition fmul_in (o : float_ops) (a b : f64) : f64 :=
  match a, b with
  | NaN, _ => NaN
  | _, NaN => NaN
  | Fin x, Fin y => mul64 o x y
  | Inf s, Fin y => if Qzero y then NaN else Inf (xorb s (Qneg y))
  | Fin x, Inf s => if Qzero x then NaN else Inf (xorb s (Qneg x))
  | Inf s, Inf t => Inf (xorb s t)
  end.

(** [numpy.rint]: the nearest integer, ties to even.  The result is a
    binary64 number whenever the argument is one. *)
Definition frint (a : f64) : f64 :=
  match a with
  | Fin x => Fin (inject_Z (rint x))
  | other => other
  end.

(** [Series.round(1)] as numpy computes it: [rint(x * 10) / 10]. *)
Definition fround1_in (o : float_ops) (a : f64) : f64 :=
  fdiv_in o (frint (fmul_in o a (Fin 10))) (Fin 10).

(** The arithmetic without rounding error, which [fdiv], [fmul] and
    [fround1] compute with. *)
Definition exact_ops : float_ops :=
  mkFloatOps (fun x y => Fin (x / y)) (fun x y => Fin (x * y)).

(** Binary64 arithmetic itself, by the primitive floats of Rocq
    (binary64, rounding to nearest, ties to even).  A float is the cell
    of its value; a finite cell that is a binary64 number, an integer
    below 2^53 in magnitude times a power of two, is the float of that
    value. *)
Definition of_float (x : PrimFloat.float) : f64 :=
  match FloatOps.Prim2SF x with
  | SpecFloat.S754_zero _ => Fin 0
  | SpecFloat.S754_infinity s => Inf s
  | SpecFloat.S754_nan => NaN
  | SpecFloat.S754_finite s m e =>
      Fin ((if s then - (1) else 1) * inject_Z (Zpos m) * Qpower 2 e)
  end.

(** [p] as an odd number times a power of two. *)
Fixpoint odd_part (p : positive) : positive * Z :=
  match p with
  | xO p' => let '(m, j) := odd_part p' in (m, (j + 1)%Z)
  | _ => (p, 0%Z)
  end.

Definition float_of_positive (p : positive) : PrimFloat.float :=
  PrimFloat.of_uint63 (Uint63.of_Z (Zpos p)).

(** Exact on the binary64 numbers; another rational is rounded. *)
Definition to_float (q : Q) : PrimFloat.float :=
  let magnitude (n : positive) : PrimFloat.float :=
    let '(m, j) := odd_part n in
    let '(d, k) := odd_part (Qden q) in
    let quotient :=
      match d with
      | xH => float_of_positive m
      | _ => PrimFloat.div (float_of_positive m) (float_of_positive d)
      end in
    FloatOps.Z.ldexp quotient (j - k)%Z in
  match Qnum q with
  | Z0 => PrimFloat.zero
  | Zpos n => magnitude n
  | Zneg n => PrimFloat.opp (magnitude n)
  end.

Definition binary64_ops : float_ops :=
  mkFloatOps
    (fun x y => of_float (PrimFloat.div (to_float x) (to_float y)))
    (fun x y => of_float (PrimFloat.mul (to_float x) (to_float y))).

(** Two cells hold the same number. *)
Definition same_number (a b : f64) : bool :=
  match a, b with
  | Fin x, Fin y => Qeq_bool x y
  | Inf s, Inf t => Bool.eqb s t
  | _, _ => false
  end.

(* ================================================================= *)
(** ** Data model *)

(** Modelled from the spec: the schema of the view [v_key_financials],
    which the ingestion pipeline creates outside this repository.  One
    row per ([sec_code], [period_end], [is_consolidated]); the monetary
    columns are nullable numbers in yen, [is_consolidated] is 0 or 1.
    [filer_name] is the further column the pages read. *)
Record KeyFinancial : Type := mkKeyFinancial {
  sec_code : string;
  filer_name : string;
  period_end : string;
  is_consolidated : Z;
  sales : option Q;
  operating_income : option Q;
  ordinary_income : option Q;
  net_income : option Q;
  total_assets : option Q;
  net_assets : option Q;
  operating_cf : option Q;
  investing_cf : option Q;
  financing_cf : option Q
}.

(** [DataFrame.empty]. *)
Definition empty {A : Type} (df : list A) : bool :=
  match df with
  | [] => true
  | _ :: _ => false
  end.

(** Insertion sort by a "may stand before" test.  Rows that compare
    equal keep their order: pandas and SQLite leave that order to the
    sorting algorithm, the model takes the stable one. *)
Fixpoint insert_by {A : Type} (before : A -> A -> bool) (x : A) (l : list A)
  : list A :=
  match l with
  | [] => [x]
  | y :: t => if before x y then x :: y :: t else y :: insert_by before x t
  end.

Definition sort_by {A : Type} (before : A -> A -> bool) (l : list A) : list A :=
  fold_right (insert_by before) [] l.

(* ================================================================= *)
(** ** pages/04_Screening.py *)

(** The page with the derived columns computed exactly.  What is proved
    here does not look at a computed number; [Screening64] below is the
    same page over binary64 results. *)
Module Screening.

Definition oku : f64 := Fin (inject_Z 100000000).

(** [screening_data[f"{col}_oku"] = screening_data[col] / 1e8] *)
Definition sales_oku (r : KeyFinancial) : f64 := fdiv (to_f64 (sales r)) oku.
Definition operating_income_oku (r : KeyFinancial) : f64 :=
  fdiv (to_f64 (operating_income r)) oku.
Definition net_income_oku (r : KeyFinancial) : f64 :=
  fdiv (to_f64 (net_income r)) oku.
Definition total_assets_oku (r : KeyFinancial) : f64 :=
  fdiv (to_f64 (total_assets r)) oku.

(** [(net_assets / total_assets * 100).round(1)] *)
Definition equity_ratio (r : KeyFinancial) : f64 :=
  fround1 (fmul (fdiv (to_f64 (net_assets r)) (to_f64 (total_assets r)))
                (Fin 100)).

(** [(operating_income / sales * 100).round(1)] *)
Definition op_margin (r : KeyFinancial) : f64 :=
  fround1 (fmul (fdiv (to_f64 (operating_income r)) (to_f64 (sales r)))
                (Fin 100)).

(** The twelve [st.number_input] values; [None] is an empty field. *)
Record bounds : Type := mkBounds {
  sales_min : option Q;  sales_max : option Q;
  op_min : option Q;     op_max : option Q;
  ni_min : option Q;     ni_max : option Q;
  eq_min : option Q;     eq_max : option Q;
  margin_min : option Q; margin_max : option Q;
  ta_min : option Q;     ta_max : option Q
}.

Definition no_bounds : bounds :=
  mkBounds None None None None None None None None None None None None.

(** [if lo is not None: filtered = filtered[filtered[col] >= lo]] *)
Definition keep_ge (col : KeyFinancial -> f64) (lo : option Q)
           (df : list KeyFinancial) : list KeyFinancial :=
  match lo with
  | Some x => filter (fun r => fge (col r) (Fin x)) df
  | None => df
  end.

(** [if hi is not None: filtered = filtered[filtered[col] <= hi]] *)
Definition keep_le (col : KeyFinancial -> f64) (hi : option Q)
           (df : list KeyFinancial) : list KeyFinancial :=
  match hi with
  | Some x => filter (fun r => fle (col r) (Fin x)) df
  | None => df
  end.

(** [filtered.dropna(subset=["sales"])] *)
Definition dropna_sales (df : list KeyFinancial) : list KeyFinancial :=
  filter (fun r => notna (to_f64 (sales r))) df.

(** The filter block, statement by statement. *)
Definition apply_filters (b : bounds) (screening_data : list KeyFinancial)
  : list KeyFinancial :=
  let filtered := screening_data in
  let filtered := keep_ge sales_oku (sales_min b) filtered in
  let filtered := keep_le sales_oku (sales_max b) filtered in
  let filtered := keep_ge operating_income_oku (op_min b) filtered in
  let filtered := keep_le operating_income_oku (op_max b) filtered in
  let filtered := keep_ge net_income_oku (ni_min b) filtered in
  let filtered := keep_le net_income_oku (ni_max b) filtered in
  let filtered := keep_ge equity_ratio (eq_min b) filtered in
  let filtered := keep_le equity_ratio (eq_max b) filtered in
  let filtered := keep_ge op_margin (margin_min b) filtered in
  let filtered := keep_le op_margin (margin_max b) filtered in
  let filtered := keep_ge total_assets_oku (ta_min b) filtered in
  let filtered := keep_le total_assets_oku (ta_max b) filtered in
  dropna_sales filtered.

(** The entries of the sort select box. *)
Inductive sort_option : Type :=
| BySales | ByOperatingIncome | ByNetIncome
| ByEquityRatio | ByOpMargin | ByTotalAssets.

(** [sort_map]: every entry sorts descending. *)
Definition sort_map (s : sort_option) : (KeyFinancial -> f64) * bool :=
  match s with
  | BySales => (sales_oku, false)
  | ByOperatingIncome => (operating_income_oku, false)
  | ByNetIncome => (net_income_oku, false)
  | ByEquityRatio => (equity_ratio, false)
  | ByOpMargin => (op_margin, false)
  | ByTotalAssets => (total_assets_oku, false)
  end.

(** Key order of [sort_values(..., na_position="last")]: [a] may stand
    before [b]. *)
Definition goes_before (asc : bool) (a b : f64) : bool :=
  isna b || (notna a && (if asc then fle a b else fle b a)).

(** [DataFrame.sort_values]. *)
Definition sort_values (key : KeyFinancial -> f64) (asc : bool)
           (df : list KeyFinancial) : list KeyFinancial :=
  sort_by (fun r1 r2 => goes_before asc (key r1) (key r2)) df.

(** What the page ends up showing. *)
Inductive page : Type :=
| NoData                                (* st.warning; st.stop() *)
| Results (display : list KeyFinancial) (* st.dataframe *)
| NoMatch.                              (* st.info *)

Definition screening_page (screening_data : list KeyFinancial)
           (b : bounds) (sort_col : sort_option) : page :=
  if empty screening_data then NoData
  else
    let filtered := apply_filters b screening_data in
    if negb (empty filtered) then
      let '(sort_key, sort_asc) := sort_map sort_col in
      Results (sort_values sort_key sort_asc filtered)
    else NoMatch.

Definition output (p : page) : list KeyFinancial :=
  match p with
  | Results display => display
  | _ => []
  end.

(** The six screened metrics and their bounds, for stating properties. *)
Inductive metric : Type :=
| Sales | OperatingIncome | NetIncome | TotalAssets | EquityRatio | OpMargin.

Definition metrics : list metric :=
  [Sales; OperatingIncome; NetIncome; TotalAssets; EquityRatio; OpMargin].

Definition value (m : metric) : KeyFinancial -> f64 :=
  match m with
  | Sales => sales_oku
  | OperatingIncome => operating_income_oku
  | NetIncome => net_income_oku
  | TotalAssets => total_assets_oku
  | EquityRatio => equity_ratio
  | OpMargin => op_margin
  end.

Definition lower (b : bounds) (m : metric) : option Q :=
  match m with
  | Sales => sales_min b
  | OperatingIncome => op_min b
  | NetIncome => ni_min b
  | TotalAssets => ta_min b
  | EquityRatio => eq_min b
  | OpMargin => margin_min b
  end.

Definition upper (b : bounds) (m : metric) : option Q :=
  match m with
  | Sales => sales_max b
  | OperatingIncome => op_max b
  | NetIncome => ni_max b
  | TotalAssets => ta_max b
  | EquityRatio => eq_max b
  | OpMargin => margin_max b
  end.

(** [v] meets an optional inclusive bound. *)
Definition meets_lower (lo : option Q) (v : f64) : bool :=
  match lo with
  | Some x => fge v (Fin x)
  | None => true
  end.

Definition meets_upper (hi : option Q) (v : f64) : bool :=
  match hi with
  | Some x => fle v (Fin x)
  | None => true
  end.

Definition within (b : bounds) (r : KeyFinancial) : bool :=
  forallb (fun m => meets_lower (lower b m) (value m r)
                    && meets_upper (upper b m) (value m r)) metrics.

Definition has_sales (r : KeyFinancial) : bool :=
  match sales r with
  | Some _ => true
  | None => false
  end.

(** A row the filter block is meant to keep. *)
Definition keeps (b : bounds) (r : KeyFinancial) : bool :=
  has_sales r && within b r.

Definition sort_key (s : sort_option) : KeyFinancial -> f64 := fst (sort_map s).

(** Descending with nulls last: a null never stands before a number,
    and numbers do not increase. *)
Definition desc_nulls_last (a b : f64) : Prop :=
  isna b = true \/ (isna a = false /\ fle b a = true).

(** A sample row: no assets, positive net assets. *)
Definition shell_company : KeyFinancial :=
  mkKeyFinancial "9999" "Shell KK" "2024-03-31" 1
    (Some (inject_Z 500000000)) (Some (inject_Z 10000000)) None None
    (Some 0) (Some (inject_Z 100000000)) None None None.

(** Only a lower bound on operating income: at least 10 oku-yen. *)
Definition op_at_least_10 : bounds :=
  mkBounds None None (Some 10) None None None None None None None None None.

(** A sample row without operating income. *)
Definition no_op_income : KeyFinancial :=
  mkKeyFinancial "1301" "Kyokuyo" "2024-03-31" 1
    (Some (inject_Z 26000000000)) None None (Some (inject_Z 500000000))
    (Some (inject_Z 15000000000)) (Some (inject_Z 5000000000))
    None None None.

End Screening.

(* ================================================================= *)
(** ** pages/04_Screening.py over binary64 arithmetic *)

(** The derived columns, the filter block and the sort of the page, with
    every division and multiplication taken from a [float_ops].  The
    bounds, the comparisons and the sort are those of [Screening]; with
    [exact_ops] the page is the one of [Screening]. *)
Module Screening64.

Section Ops.
Variable o : float_ops.

(** [screening_data[f"{col}_oku"] = screening_data[col] / 1e8] *)
Definition sales_oku (r : KeyFinancial) : f64 :=
  fdiv_in o (to_f64 (sales r)) Screening.oku.
Definition operating_income_oku (r : KeyFinancial) : f64 :=
  fdiv_in o (to_f64 (operating_income r)) Screening.oku.
Definition net_income_oku (r : KeyFinancial) : f64 :=
  fdiv_in o (to_f64 (net_income r)) Screening.oku.
Definition total_assets_oku (r : KeyFinancial) : f64 :=
  fdiv_in o (to_f64 (total_assets r)) Screening.oku.

(** [(net_assets / total_assets * 100).round(1)] *)
Definition equity_ratio (r : KeyFinancial) : f64 :=
  fround1_in o
    (fmul_in o (fdiv_in o (to_f64 (net_assets r)) (to_f64 (total_assets r)))
               (Fin 100)).

(** [(operating_income / sales * 100).round(1)] *)
Definition op_margin (r : KeyFinancial) : f64 :=
  fround1_in o
    (fmul_in o (fdiv_in o (to_f64 (operating_income r)) (to_f64 (sales r)))
               (Fin 100)).

(** The filter block, statement by statement. *)
Definition apply_filters (b : Screening.bounds)
           (screening_data : list KeyFinancial) : list KeyFinancial :=
  let filtered := screening_data in
  let filtered := Screening.keep_ge sales_oku (Screening.sales_min b) filtered in
  let filtered := Screening.keep_le sales_oku (Screening.sales_max b) filtered in
  let filtered :=
    Screening.keep_ge operating_income_oku (Screening.op_min b) filtered in
  let filtered :=
    Screening.keep_le operating_income_oku (Screening.op_max b) filtered in
  let filtered := Screening.keep_ge net_income_oku (Screening.ni_min b) filtered in
  let filtered := Screening.keep_le net_income_oku (Screening.ni_max b) filtered in
  let filtered := Screening.keep_ge equity_ratio (Screening.eq_min b) filtered in
  let filtered := Screening.keep_le equity_ratio (Screening.eq_max b) filtered in
  let filtered := Screening.keep_ge op_margin (Screening.margin_min b) filtered in
  let filtered := Screening.keep_le op_margin (Screening.margin_max b) filtered in
  let filtered :=
    Screening.keep_ge total_assets_oku (Screening.ta_min b) filtered in
  let filtered :=
    Screening.keep_le total_assets_oku (Screening.ta_max b) filtered in
  Screening.dropna_sales filtered.

(** [sort_map]: every entry sorts descending. *)
Definition sort_map (s : Screening.sort_option)
  : (KeyFinancial -> f64) * bool :=
  match s with
  | Screening.BySales => (sales_oku, false)
  | Screening.ByOperatingIncome => (operating_income_oku, false)
  | Screening.ByNetIncome => (net_income_oku, false)
  | Screening.ByEquityRatio => (equity_ratio, false)
  | Screening.ByOpMargin => (op_margin, false)
  | Screening.ByTotalAssets => (total_assets_oku, false)
  end.

Definition screening_page (screening_data : list KeyFinancial)
           (b : Screening.bounds) (sort_col : Screening.sort_option)
  : Screening.page :=
  if empty screening_data then Screening.NoData
  else
    let filtered := apply_filters b screening_data in
    if negb (empty filtered) then
      let '(sort_key, sort_asc) := sort_map sort_col in
      Screening.Results (Screening.sort_values sort_key sort_asc filtered)
    else Screening.NoMatch.

(** *** The metrics as the specification names them *)

(** An amount in oku-yen: the yen amount over 10^8, null when the amount
    is null. *)
Definition in_oku_yen (yen : option Q) : f64 :=
  match yen with
  | Some q => div64 o q (inject_Z 100000000)
  | None => NaN
  end.

(** A step of a computation on a finite value; a null or an infinity
    stays what it is (the steps below multiply or divide by a positive
    constant, or round). *)
Definition on_finite (step : Q -> f64) (v : f64) : f64 :=
  match v with
  | Fin q => step q
  | other => other
  end.

(** One decimal: times 10, to the nearest integer (ties to even), over
    10. *)
Definition round_1_decimal (v : f64) : f64 :=
  on_finite (fun z => div64 o (inject_Z (rint z)) 10)
            (on_finite (fun y => mul64 o y 10) v).

(** [n / d * 100] rounded to one decimal, for a denominator that is not
    zero. *)
Definition percent (n d : Q) : f64 :=
  round_1_decimal (on_finite (fun q => mul64 o q 100) (div64 o n d)).

(** A ratio in percent, case by case: null when an operand is null or
    both are zero, a signed infinity when only the denominator is zero,
    and otherwise the quotient times 100, rounded to one decimal. *)
Definition percentage (num den : option Q) : f64 :=
  match num, den with
  | Some n, Some d =>
      if Qeq_bool d 0 then
        if Qeq_bool n 0 then NaN
        else if Qle_bool 0 n then Inf false else Inf true
      else percent n d
  | _, _ => NaN
  end.

Definition metric_value (m : Screening.metric) (r : KeyFinancial) : f64 :=
  match m with
  | Screening.Sales => in_oku_yen (sales r)
  | Screening.OperatingIncome => in_oku_yen (operating_income r)
  | Screening.NetIncome => in_oku_yen (net_income r)
  | Screening.TotalAssets => in_oku_yen (total_assets r)
  | Screening.EquityRatio => percentage (net_assets r) (total_assets r)
  | Screening.OpMargin => percentage (operating_income r) (sales r)
  end.

(** A row with a sales value that meets every bound that is set. *)
Definition qualifies (b : Screening.bounds) (r : KeyFinancial) : bool :=
  Screening.has_sales r
  && forallb (fun m =>
                Screening.meets_lower (Screening.lower b m) (metric_value m r)
                && Screening.meets_upper (Screening.upper b m) (metric_value m r))
             Screening.metrics.

(** What the ratio of a row is, by the case its operands fall in. *)
Definition ratio_case (num den : option Q) (v : f64) : Prop :=
  ((num = None \/ den = None) /\ v = NaN)
  \/ (exists n d, num = Some n /\ den = Some d /\ d == 0 /\ n == 0 /\ v = NaN)
  \/ (exists n d, num = Some n /\ den = Some d /\ d == 0 /\ 0 < n
                  /\ v = Inf false)
  \/ (exists n d, num = Some n /\ den = Some d /\ d == 0 /\ n < 0
                  /\ v = Inf true)
  \/ (exists n d, num = Some n /\ den = Some d /\ ~ d == 0
                  /\ v = percent n d).

(** What a percentage ratio [(num / den * 100).round(1)] is: null when
    an operand is null or both are zero, a signed infinity when only the
    denominator is zero, otherwise the binary64 quotient times 100,
    rounded to one decimal in binary64; and one of these cases always
    applies. *)
Definition pct_ratio_spec (num den : option Q) (v : f64) : Prop :=
  ((num = None \/ den = None) -> v = NaN)
  /\ (forall n d, num = Some n -> den = Some d ->
        (d == 0 -> n == 0 -> v = NaN)
        /\ (d == 0 -> 0 < n -> v = Inf false)
        /\ (d == 0 -> n < 0 -> v = Inf true)
        /\ (~ d == 0 -> v = percent n d))
  /\ ratio_case num den v.

End Ops.

(** The metric each entry of the sort select box names. *)
Definition selected_metric (s : Screening.sort_option) : Screening.metric :=
  match s with
  | Screening.BySales => Screening.Sales
  | Screening.ByOperatingIncome => Screening.OperatingIncome
  | Screening.ByNetIncome => Screening.NetIncome
  | Screening.ByEquityRatio => Screening.EquityRatio
  | Screening.ByOpMargin => Screening.OpMargin
  | Screening.ByTotalAssets => Screening.TotalAssets
  end.

(** Only a lower bound on the equity ratio: at least 30 percent. *)
Definition equity_at_least_30 : Screening.bounds :=
  Screening.mkBounds None None None None None None (Some 30) None
                     None None None None.

(** A sample row with the given net assets and total assets, in yen. *)
Definition with_equity (net total : Z) : KeyFinancial :=
  mkKeyFinancial "8888" "Thin KK" "2024-03-31" 1
    (Some (inject_Z 1000000000)) (Some (inject_Z 50000000)) None None
    (Some (inject_Z total)) (Some (inject_Z net)) None None None.

(** A sample row whose equity ratio is 0.55 percent before rounding. *)
Definition thin_equity : KeyFinancial := with_equity 11 2000.

(** Only a lower bound on the equity ratio: at least 0.6 percent. *)
Definition equity_at_least_06 : Screening.bounds :=
  Screening.mkBounds None None None None None None (Some (6 # 10)) None
                     None None None None.

End Screening64.

(* ================================================================= *)
(** ** db_helper.py *)

(** Modelled from the spec: the schema of the table [text_blocks], which
    the ingestion pipeline creates outside this repository, with the
    columns the search selects.  [section_label] is nullable;
    [text_content] is taken as nullable too, as the pages guard it
    against [None]. *)
Record TextBlock : Type := mkTextBlock {
  tb_doc_id : string;
  tb_sec_code : string;
  tb_filer_name : string;
  tb_period_start : string;
  tb_period_end : string;
  tb_element_name : string;
  tb_section_label : option string;
  tb_text_content : option string
}.

(** Modelled from the spec: the schema of the table [documents], which
    the ingestion pipeline creates outside this repository, with the
    columns the company queries read.  [sec_code] is nullable. *)
Record Document : Type := mkDocument {
  doc_id : string;
  doc_sec_code : option string;
  doc_filer_name : string;
  doc_file_date : string
}.

Module DbHelper.

(** *** The store and the effects of a query function *)

(** A value bound to a [?] placeholder. *)
Inductive param : Type :=
| PText (s : string)
| PInt (n : Z).

(** A cell of a result set. *)
Inductive cell : Type :=
| Null
| Int (n : Z)
| Real (q : Q)
| Text (s : string).

Record DataFrame : Type := mkDataFrame {
  columns : list string;
  rows : list (list cell)
}.

(** [pd.DataFrame()] *)
Definition pd_DataFrame : DataFrame := mkDataFrame [] [].

(** What a query function can raise.  The driver's errors (a missing
    table or column among them) and the errors of indexing are
    [Exception]s; [st.stop()] raises a [BaseException] that
    [except Exception] does not catch. *)
Inductive exn : Type :=
| DatabaseError (msg : string)
| TypeError
| IndexError
| StopException.

Definition is_Exception (e : exn) : bool :=
  match e with
  | StopException => false
  | _ => true
  end.

(** The SQLite file: whether it is there, and what the engine answers to
    a statement with its bound parameters, an error message or a result
    set.  The store is read-only, so the answer is a function of the
    statement. *)
Record store : Type := mkStore {
  db_exists : bool;
  execute : string -> list param -> string + DataFrame
}.

(** A statement as sent to the store: SQL text and bound parameters. *)
Definition query : Type := string * list param.

Inductive outcome (A : Type) : Type :=
| Returned (a : A)
| Raised (e : exn).
Arguments Returned {A} a.
Arguments Raised {A} e.

(** A computation that may raise and that logs the statements it sends. *)
Definition M (A : Type) : Type := list query -> outcome A * list query.

Definition ret {A : Type} (a : A) : M A := fun t => (Returned a, t).

Definition raise {A : Type} (e : exn) : M A := fun t => (Raised e, t).

Definition bind {A B : Type} (c : M A) (k : A -> M B) : M B :=
  fun t =>
    match c t with
    | (Returned a, t') => k a t'
    | (Raised e, t') => (Raised e, t')
    end.

Notation "x <- c ;; k" := (bind c (fun x => k))
  (at level 61, c at next level, right associativity).

(** [try: body / except Exception: handler] *)
Definition try_except {A : Type} (body handler : M A) : M A :=
  fun t =>
    match body t with
    | (Raised e, t') => if is_Exception e then handler t' else (Raised e, t')
    | done => done
    end.

(** The result and the statements sent, starting from an empty log. *)
Definition result {A : Type} (c : M A) : outcome A := fst (c []).
Definition sent {A : Type} (c : M A) : list query := snd (c []).

(** [get_connection]: without the file, [st.error] then [st.stop()]. *)
Definition get_connection (db : store) : M unit :=
  if db_exists db then ret tt else raise StopException.

(** [conn.execute(sql, params)] / [pd.read_sql_query(sql, conn, params)] *)
Definition run (db : store) (sql : string) (params : list param) : M DataFrame :=
  fun t =>
    match execute db sql params with
    | inl msg => (Raised (DatabaseError msg), t ++ [(sql, params)])
    | inr df => (Returned df, t ++ [(sql, params)])
    end.

(** [_query_df]; closing the connection in [finally] changes neither
    the result nor what was sent. *)
Definition _query_df (db : store) (sql : string) (params : list param)
  : M DataFrame :=
  _ <- get_connection db ;;
  run db sql params.

(** [cursor.fetchone()]: the first row, or [None]. *)
Definition fetchone (df : DataFrame) : option (list cell) := hd_error (rows df).

(** [row[i]] *)
Definition subscript (row : option (list cell)) (i : nat) : M cell :=
  match row with
  | None => raise TypeError
  | Some r =>
      match nth_error r i with
      | Some c => ret c
      | None => raise IndexError
      end
  end.

(** [conn.execute(sql).fetchone()[0]] *)
Definition scalar (db : store) (sql : string) : M cell :=
  df <- run db sql [] ;;
  subscript (fetchone df) 0.

(** *** get_db_stats *)

Record stats : Type := mkStats {
  total_docs : cell;
  total_companies : cell;
  parsed_docs : cell;
  downloaded_docs : cell;
  financial_records : cell;
  text_blocks : cell;
  date_from : cell;
  date_to : cell;
  doc_type_counts : list (cell * cell)
}.

Definition cell_truthy (c : cell) : bool :=
  match c with
  | Null => false
  | Int n => negb (n =? 0)%Z
  | Real q => negb (Qzero q)
  | Text s => negb (s =? "")
  end.

(** [c or d] *)
Definition cell_or (c d : cell) : cell := if cell_truthy c then c else d.

Definition cell_eqb (a b : cell) : bool :=
  match a, b with
  | Null, Null => true
  | Int n, Int m => (n =? m)%Z
  | Real p, Real q => Qeq_bool p q
  | Int n, Real q => Qeq_bool (inject_Z n) q
  | Real q, Int n => Qeq_bool q (inject_Z n)
  | Text s, Text u => (s =? u)
  | _, _ => false
  end.

(** [d[k] = v] on a dict kept in insertion order. *)
Fixpoint dict_set (k v : cell) (d : list (cell * cell)) : list (cell * cell) :=
  match d with
  | [] => [(k, v)]
  | (k', v') :: rest =>
      if cell_eqb k k' then (k', v) :: rest else (k', v') :: dict_set k v rest
  end.

(** [{r[0]: r[1] for r in rows}] *)
Fixpoint count_dict (rs : list (list cell)) (d : list (cell * cell))
  : M (list (cell * cell)) :=
  match rs with
  | [] => ret d
  | r :: rest =>
      k <- subscript (Some r) 0 ;;
      v <- subscript (Some r) 1 ;;
      count_dict rest (dict_set k v d)
  end.

Definition total_docs_sql : string := "SELECT COUNT(*) FROM documents".
Definition total_companies_sql : string := "SELECT COUNT(DISTINCT sec_code) FROM documents WHERE sec_code IS NOT NULL AND sec_code != ''".
Definition parsed_docs_sql : string := "SELECT COUNT(*) FROM documents WHERE parse_status = 1".
Definition downloaded_docs_sql : string := "SELECT COUNT(*) FROM documents WHERE dl_status > 0".
Definition key_financials_sql : string := "SELECT COUNT(*) FROM key_financials".
Definition financials_sql : string := "SELECT COUNT(*) FROM financials".
Definition text_blocks_sql : string := "SELECT COUNT(*) FROM text_blocks".
Definition date_range_sql : string := "SELECT MIN(file_date) as min_date, MAX(file_date) as max_date FROM documents".
Definition doc_type_counts_sql : string := "
            SELECT doc_type_code, COUNT(*) as cnt FROM documents
            GROUP BY doc_type_code ORDER BY cnt DESC
        ".

(** [get_db_stats], as it runs on a cache miss of [st.cache_data]. *)
Definition get_db_stats (db : store) : M stats :=
  _ <- get_connection db ;;
  total_docs <- scalar db total_docs_sql ;;
  total_companies <- scalar db total_companies_sql ;;
  parsed_docs <- try_except (scalar db parsed_docs_sql) (ret (Int 0)) ;;
  downloaded_docs <- try_except (scalar db downloaded_docs_sql) (ret (Int 0)) ;;
  financial_records <-
    try_except (scalar db key_financials_sql)
      (try_except (scalar db financials_sql) (ret (Int 0))) ;;
  text_blocks <- try_except (scalar db text_blocks_sql) (ret (Int 0)) ;;
  df <- run db date_range_sql [] ;;
  let row := fetchone df in
  min_date <- subscript row 0 ;;
  max_date <- subscript row 1 ;;
  counts <- run db doc_type_counts_sql [] ;;
  doc_type_counts <- count_dict (rows counts) [] ;;
  ret (mkStats total_docs total_companies parsed_docs downloaded_docs
         financial_records text_blocks
         (cell_or min_date (Text "")) (cell_or max_date (Text ""))
         doc_type_counts).

(** *** search_companies *)

Definition search_companies_sql : string := "
        SELECT DISTINCT
            sec_code,
            filer_name,
            COUNT(*) as doc_count,
            MAX(file_date) as latest_date
        FROM documents
        WHERE sec_code IS NOT NULL AND sec_code != ''
          AND (sec_code LIKE ? OR filer_name LIKE ?)
        GROUP BY sec_code, filer_name
        ORDER BY sec_code
    ".

Section Strip.
(** [str.strip], as Python defines it. *)
Variable strip : string -> string.

Definition search_companies (db : store) (keyword : string) : M DataFrame :=
  if strip keyword =? "" then ret pd_DataFrame
  else
    let like := ("%" ++ strip keyword ++ "%")%string in
    _query_df db search_companies_sql [PText like; PText like].
End Strip.

(** *** get_financial_details *)

Definition financial_details_sql : string := "
            SELECT
                f.doc_id, f.period_start, f.period_end,
                f.account_element, f.account_label,
                f.context, f.unit, f.value,
                f.is_consolidated, f.statement_type
            FROM financials f
            WHERE f.sec_code = ? AND f.is_consolidated = ?
            ORDER BY f.period_end DESC, f.statement_type, f.account_element
        ".

Definition get_financial_details (db : store) (sec_code : string)
           (is_consolidated : Z) : M DataFrame :=
  try_except
    (_query_df db financial_details_sql [PText sec_code; PInt is_consolidated])
    (ret pd_DataFrame).

(** *** get_multi_company_financials *)

(** [s * n] *)
Fixpoint str_mul (s : string) (n : nat) : string :=
  match n with
  | O => ""
  | S n' => (s ++ str_mul s n')%string
  end.

(** The characters of a string, as [str.join] iterates over them. *)
Fixpoint chars (s : string) : list string :=
  match s with
  | EmptyString => []
  | String c rest => String c "" :: chars rest
  end.

Definition multi_company_sql_head : string := "
        SELECT * FROM v_key_financials
        WHERE sec_code IN (".
Definition multi_company_sql_tail : string := ")
        ORDER BY sec_code, period_end DESC
    ".

Definition get_multi_company_financials (db : store) (sec_codes : list string)
  : M DataFrame :=
  if empty sec_codes then ret pd_DataFrame
  else
    let placeholders := String.concat "," (chars (str_mul "?" (List.length sec_codes))) in
    _query_df db
      (multi_company_sql_head ++ placeholders ++ multi_company_sql_tail)%string
      (map PText sec_codes).

(** String order of SQLite's default collation: byte-wise. *)
Definition str_max (a b : string) : string := if String.leb a b then b else a.

(** What the statement returns over the view [v]:
    [WHERE sec_code IN (...) ORDER BY sec_code, period_end DESC]. *)
Definition multi_company_order (a b : KeyFinancial) : bool :=
  match String.compare (sec_code a) (sec_code b) with
  | Lt => true
  | Gt => false
  | Eq => String.leb (period_end b) (period_end a)
  end.

Definition get_multi_company_financials_rows (v : list KeyFinancial)
           (sec_codes : list string) : list KeyFinancial :=
  if empty sec_codes then []
  else
    sort_by multi_company_order
      (filter (fun r => existsb (String.eqb (sec_code r)) sec_codes) v).

(** *** get_screening_data *)

Definition screening_sql : string := "
        WITH latest AS (
            SELECT sec_code, MAX(period_end) as max_period
            FROM v_key_financials
            WHERE is_consolidated = 1
            GROUP BY sec_code
        )
        SELECT v.*
        FROM v_key_financials v
        INNER JOIN latest l
            ON v.sec_code = l.sec_code
            AND v.period_end = l.max_period
        WHERE v.is_consolidated = 1
        ORDER BY v.sec_code
    ".

Definition get_screening_data (db : store) : M DataFrame :=
  _query_df db screening_sql [].

(** [MAX(col)] over a group: NULL for no rows. *)
Fixpoint sql_max (l : list string) : option string :=
  match l with
  | [] => None
  | x :: rest =>
      match sql_max rest with
      | None => Some x
      | Some m => Some (str_max x m)
      end
  end.

Definition consolidated (r : KeyFinancial) : bool := (is_consolidated r =? 1)%Z.

(** [MAX(period_end)] of the group of [sec_code = c] among the
    consolidated rows. *)
Definition max_period (v : list KeyFinancial) (c : string) : option string :=
  sql_max (map period_end
               (filter (fun r => sec_code r =? c) (filter consolidated v))).

(** The common table expression [latest]: one row per [sec_code] found
    among the consolidated rows, with the group's greatest [period_end]. *)
Definition latest (v : list KeyFinancial) : list (string * option string) :=
  map (fun c => (c, max_period v c))
      (nodup string_dec (map sec_code (filter consolidated v))).

(** [v.sec_code = l.sec_code AND v.period_end = l.max_period], and the
    [WHERE] clause. *)
Definition joins (r : KeyFinancial) (l : string * option string) : bool :=
  (sec_code r =? fst l)
  && match snd l with
     | Some m => period_end r =? m
     | None => false
     end
  && consolidated r.

(** What the statement returns over the view [v]. *)
Definition get_screening_data_rows (v : list KeyFinancial) : list KeyFinancial :=
  sort_by (fun a b => String.leb (sec_code a) (sec_code b))
    (flat_map (fun r =>
                 flat_map (fun l => if joins r l then [r] else []) (latest v))
              v).

(** *** search_text_blocks *)

Inductive condition : Type :=
| Always
| SecCodeEq
| SectionLabelEq
| TextContentLike
| PeriodEndEq.

Definition condition_sql (c : condition) : string :=
  match c with
  | Always => "1=1"
  | SecCodeEq => "sec_code = ?"
  | SectionLabelEq => "section_label = ?"
  | TextContentLike => "text_content LIKE ?"
  | PeriodEndEq => "period_end = ?"
  end.

(** [if x:] for an [Optional[str]]: [None] and the empty string are
    false. *)
Definition given (x : option string) : bool :=
  match x with
  | Some s => negb (s =? "")
  | None => false
  end.

Definition str_of (x : option string) : string :=
  match x with
  | Some s => s
  | None => ""
  end.

(** The lists [conditions] and [params] before [limit] is appended. *)
Definition build_conditions (sec_code section_label keyword period_end
                             : option string)
  : list condition * list string :=
  let conditions := [Always] in
  let params := [] in
  let '(conditions, params) :=
    if given sec_code
    then (conditions ++ [SecCodeEq], params ++ [str_of sec_code])
    else (conditions, params) in
  let '(conditions, params) :=
    if given section_label
    then (conditions ++ [SectionLabelEq], params ++ [str_of section_label])
    else (conditions, params) in
  let '(conditions, params) :=
    if given keyword
    then (conditions ++ [TextContentLike],
          params ++ [("%" ++ str_of keyword ++ "%")%string])
    else (conditions, params) in
  let '(conditions, params) :=
    if given period_end
    then (conditions ++ [PeriodEndEq], params ++ [str_of period_end])
    else (conditions, params) in
  (conditions, params).

Definition text_search_sql_head : string := "
        SELECT
            doc_id, sec_code, filer_name,
            period_start, period_end,
            element_name, section_label,
            text_content
        FROM text_blocks
        WHERE ".
Definition text_search_sql_tail : string := "
        ORDER BY period_end DESC, sec_code
        LIMIT ?
    ".

Definition search_text_blocks_query
           (sec_code section_label keyword period_end : option string)
           (limit : Z) : query :=
  let '(conditions, params) :=
    build_conditions sec_code section_label keyword period_end in
  let where_ := String.concat " AND " (map condition_sql conditions) in
  ((text_search_sql_head ++ where_ ++ text_search_sql_tail)%string,
   map PText params ++ [PInt limit]).

Definition search_text_blocks (db : store)
           (sec_code section_label keyword period_end : option string)
           (limit : Z) : M DataFrame :=
  let '(sql, params) :=
    search_text_blocks_query sec_code section_label keyword period_end limit in
  _query_df db sql params.

(** SQLite's [LIKE] without [ESCAPE].  Pattern and text are read as C
    strings, that is up to their first NUL byte, and one UTF-8 character
    at a time: a byte from 0xC0 on takes the continuation bytes
    (0x80 to 0xBF) that follow it.  [%] stands for any run of
    characters, [_] for one character, any other character for itself,
    the letters A-Z and a-z without regard to case.  Strings are
    well-formed UTF-8, as Python encodes them. *)
Definition ascii_lower (c : ascii) : ascii :=
  let n := nat_of_ascii c in
  if ((65 <=? n) && (n <=? 90))%nat then ascii_of_nat (n + 32) else c.

Definition is_continuation (c : ascii) : bool :=
  let n := nat_of_ascii c in ((128 <=? n) && (n <? 192))%nat.

(** A C string ends at its first NUL byte. *)
Fixpoint c_str (s : string) : string :=
  match s with
  | EmptyString => EmptyString
  | String b rest =>
      if (b =? Ascii.zero)%char then EmptyString else String b (c_str rest)
  end.

(** A character that is a lone continuation byte. *)
Definition is_continuation_char (c : string) : bool :=
  match c with
  | String b EmptyString => is_continuation b
  | _ => false
  end.

(** The continuation bytes at the head of a list of characters, and the
    characters after them. *)
Fixpoint take_continuation (chars : list string) : string * list string :=
  match chars with
  | c :: rest =>
      if is_continuation_char c then
        let '(k, others) := take_continuation rest in ((c ++ k)%string, others)
      else (EmptyString, chars)
  | [] => (EmptyString, [])
  end.


(** The characters of a string, each as its bytes. *)
Fixpoint utf8_chars (s : string) : list string :=
  match s with
  | EmptyString => []
  | String b rest =>
      if (192 <=? nat_of_ascii b)%nat then
        let '(k, others) := take_continuation (utf8_chars rest) in
        String b k :: others
      else String b EmptyString :: utf8_chars rest
  end.

(** Lower case of a character; only A-Z change. *)
Definition char_lower (c : string) : string :=
  match c with
  | String b EmptyString => String (ascii_lower b) EmptyString
  | _ => c
  end.

Fixpoint like_chars (pattern text : list string) {struct pattern} : bool :=
  match pattern with
  | [] =>
      match text with
      | [] => true
      | _ :: _ => false
      end
  | p :: pattern' =>
      if p =? "%" then
        (fix any (t : list string) : bool :=
           like_chars pattern' t
           || match t with
              | [] => false
              | _ :: t' => any t'
              end) text
      else
        match text with
        | [] => false
        | c :: text' =>
            ((char_lower p =? char_lower c) || (p =? "_"))
            && like_chars pattern' text'
        end
  end.

Definition like (pattern text : string) : bool :=
  like_chars (utf8_chars (c_str pattern)) (utf8_chars (c_str text)).

(** Three-valued conjunction. *)
Definition sql_and (a b : option bool) : option bool :=
  match a, b with
  | Some false, _ => Some false
  | _, Some false => Some false
  | Some true, Some true => Some true
  | _, _ => None
  end.

(** One condition on one row, with the parameter bound to its [?]. *)
Definition holds (c : condition) (p : string) (r : TextBlock) : option bool :=
  match c with
  | Always => Some true
  | SecCodeEq => Some (tb_sec_code r =? p)
  | SectionLabelEq => option_map (fun s => s =? p) (tb_section_label r)
  | TextContentLike => option_map (like p) (tb_text_content r)
  | PeriodEndEq => Some (tb_period_end r =? p)
  end.

(** The [WHERE] clause: the conditions joined by [AND], each [?] taking
    the next parameter. *)
Fixpoint where_clause (conditions : list condition) (params : list string)
         (r : TextBlock) : option bool :=
  match conditions with
  | [] => Some true
  | Always :: rest => sql_and (Some true) (where_clause rest params r)
  | c :: rest =>
      match params with
      | p :: ps => sql_and (holds c p r) (where_clause rest ps r)
      | [] => None
      end
  end.

Definition selected (conditions : list condition) (params : list string)
           (r : TextBlock) : bool :=
  match where_clause conditions params r with
  | Some true => true
  | _ => false
  end.

(** [ORDER BY period_end DESC, sec_code] *)
Definition text_order (a b : TextBlock) : bool :=
  match String.compare (tb_period_end a) (tb_period_end b) with
  | Gt => true
  | Lt => false
  | Eq => String.leb (tb_sec_code a) (tb_sec_code b)
  end.

(** [LIMIT n] for an [n] that SQLite can hold, a 64-bit signed integer:
    a negative [n] is no limit.  Binding a Python [int] outside that
    range raises [OverflowError] before the statement runs; the
    properties of a limited query are stated for limits that fit. *)
Definition sql_limit {A : Type} (n : Z) (l : list A) : list A :=
  if (n <? 0)%Z then l else firstn (Z.to_nat n) l.

Definition fits_int64 (n : Z) : bool :=
  ((-9223372036854775808 <=? n) && (n <=? 9223372036854775807))%Z.

(** SQLite refuses a [LIKE] pattern longer than this many bytes (the
    default of the build option of the same name). *)
Definition SQLITE_MAX_LIKE_PATTERN_LENGTH : Z := 50000%Z.

(** What the statement of [search_text_blocks] returns over the table. *)
Definition search_text_blocks_rows (table : list TextBlock)
           (sec_code section_label keyword period_end : option string)
           (limit : Z) : list TextBlock :=
  let '(conditions, params) :=
    build_conditions sec_code section_label keyword period_end in
  sql_limit limit
    (sort_by text_order (filter (selected conditions params) table)).







(** *** Notions used to state the properties *)

(** How often a character occurs in a string. *)
Fixpoint count_char (c : ascii) (s : string) : nat :=
  match s with
  | EmptyString => O
  | String d rest => ((if (c =? d)%char then 1 else 0) + count_char c rest)%nat
  end.

(** A count that falls back to zero when its statement fails. *)
Definition or_zero (o : outcome cell) : cell :=
  match o with
  | Returned v => v
  | Raised _ => Int 0
  end.

(** The filter values of a text search that are given, in the order of
    their placeholders. *)
Definition bound_values (sec_code section_label keyword period_end
                         : option string) : list string :=
  (if given sec_code then [str_of sec_code] else [])
  ++ (if given section_label then [str_of section_label] else [])
  ++ (if given keyword then [("%" ++ str_of keyword ++ "%")%string] else [])
  ++ (if given period_end then [str_of period_end] else []).

(** The invariant of [v_key_financials]: no two rows share
    ([sec_code], [period_end], [is_consolidated]). *)
Definition key_of (r : KeyFinancial) : string * string * Z :=
  (sec_code r, period_end r, is_consolidated r).

Definition key_unique (v : list KeyFinancial) : Prop := NoDup (map key_of v).

(** A consolidated row whose [period_end] is the greatest of its
    company's consolidated rows. *)
Definition is_latest (v : list KeyFinancial) (r : KeyFinancial) : bool :=
  consolidated r
  && match max_period v (sec_code r) with
     | Some m => period_end r =? m
     | None => false
     end.

(** A row meets every filter that is given. *)
Definition matches (sec_code section_label keyword period_end : option string)
           (r : TextBlock) : bool :=
  (if given sec_code then tb_sec_code r =? str_of sec_code else true)
  && (if given section_label
      then match tb_section_label r with
           | Some s => s =? str_of section_label
           | None => false
           end
      else true)
  && (if given keyword
      then match tb_text_content r with
           | Some text => like ("%" ++ str_of keyword ++ "%")%string text
           | None => false
           end
      else true)
  && (if given period_end then tb_period_end r =? str_of period_end else true).


(** The pattern made of the keyword is one SQLite accepts. *)
Definition pattern_fits (keyword : option string) : bool :=
  if given keyword
  then (Z.of_nat (String.length ("%" ++ str_of keyword ++ "%"))
        <=? SQLITE_MAX_LIKE_PATTERN_LENGTH)%Z
  else true.


(** Sample text blocks. *)
Definition sales_block : TextBlock :=
  mkTextBlock "S100A" "7203" "Toyota" "2023-04-01" "2024-03-31"
    "BusinessResultsTextBlock" (Some "Business results")
    (Some "Net sales rose to 1000 million yen.").

Definition risk_block : TextBlock :=
  mkTextBlock "S100B" "6758" "Sony" "2023-04-01" "2024-03-31"
    "BusinessRisksTextBlock" (Some "Business risks")
    (Some "Exchange rates are a RISK factor.").

(** [c] ends in [o] whatever was sent before. *)
Definition yields {A : Type} (c : M A) (o : outcome A) : Prop :=
  forall t, fst (c t) = o.

(** A store with nothing but the table [documents], without the status
    columns. *)
Definition minimal_db : store :=
  mkStore true
    (fun sql _ =>
       if sql =? total_docs_sql then inr (mkDataFrame ["COUNT(*)"] [[Int 3]])
       else if sql =? total_companies_sql
       then inr (mkDataFrame ["COUNT(DISTINCT sec_code)"] [[Int 2]])
       else if sql =? date_range_sql
       then inr (mkDataFrame ["min_date"; "max_date"]
                   [[Text "2024-04-01"; Text "2024-06-28"]])
       else if sql =? doc_type_counts_sql
       then inr (mkDataFrame ["doc_type_code"; "cnt"]
                   [[Text "120"; Int 2]; [Text "140"; Int 1]])
       else inl "no such table or column").

(** *** get_key_financials *)

Definition key_financials_by_code_sql : string := "
        SELECT * FROM v_key_financials
        WHERE sec_code = ?
        ORDER BY period_end DESC
    ".

Definition get_key_financials (db : store) (sec_code : string) : M DataFrame :=
  _query_df db key_financials_by_code_sql [PText sec_code].

(** What the statement returns over the view [v]:
    [WHERE sec_code = ? ORDER BY period_end DESC]. *)
Definition get_key_financials_rows (v : list KeyFinancial) (code : string)
  : list KeyFinancial :=
  sort_by (fun a b => String.leb (period_end b) (period_end a))
    (filter (fun r => sec_code r =? code) v).

(** *** DOC_TYPE_NAMES *)

Definition DOC_TYPE_NAMES : list (string * string) :=
  [("120", "有価証券報告書");
   ("130", "訂正有価証券報告書");
   ("140", "四半期報告書");
   ("150", "訂正四半期報告書");
   ("160", "半期報告書");
   ("170", "訂正半期報告書");
   ("060", "大量保有報告書");
   ("070", "訂正大量保有報告書")].

(** [d.get(key)] on a dict given as its items. *)
Fixpoint dict_get (key : string) (d : list (string * string)) : option string :=
  match d with
  | [] => None
  | (k, v) :: rest => if k =? key then Some v else dict_get key rest
  end.

(** *** What a computation sends *)

(** Whatever was sent before, [c] adds only statements that satisfy [P]. *)
Definition sends_only {A : Type} (c : M A) (P : query -> Prop) : Prop :=
  forall t, exists t', snd (c t) = t ++ t' /\ Forall P t'.

(** [c] raises an [Exception], whatever was sent before. *)
Definition raises {A : Type} (c : M A) : Prop :=
  exists e, yields c (Raised e) /\ is_Exception e = true.

(** [ORDER BY sec_code, period_end DESC], as a relation. *)
Definition code_then_period_desc (a b : KeyFinancial) : Prop :=
  String.compare (sec_code a) (sec_code b) = Lt
  \/ (sec_code a = sec_code b
      /\ String.leb (period_end b) (period_end a) = true).

(** *** get_company_list and search_companies over the table *)

(** The columns of a company row: [sec_code], [filer_name], [doc_count]
    and [latest_date]. *)
Record Company : Type := mkCompany {
  c_sec_code : string;
  c_filer_name : string;
  doc_count : nat;
  latest_date : option string
}.

(** [WHERE sec_code IS NOT NULL AND sec_code != ''] *)
Definition has_code (d : Document) : bool :=
  match doc_sec_code d with
  | Some s => negb (s =? "")
  | None => false
  end.

Definition company_key (d : Document) : string * string :=
  (str_of (doc_sec_code d), doc_filer_name d).

Definition key_dec (a b : string * string) : {a = b} + {a <> b}.
Proof. decide equality; apply string_dec. Defined.

Definition key_eqb (a b : string * string) : bool :=
  if key_dec a b then true else false.

(** The rows of one group. *)
Definition group (docs : list Document) (k : string * string) : list Document :=
  filter (fun d => key_eqb (company_key d) k) docs.

(** [ORDER BY sec_code] over the groups: SQLite forms the groups in the
    order of the [GROUP BY] terms, which already is an order by
    [sec_code], so that groups with the same [sec_code] come in the
    order of [filer_name]. *)
Definition group_order (a b : Company) : bool :=
  match String.compare (c_sec_code a) (c_sec_code b) with
  | Lt => true
  | Gt => false
  | Eq => String.leb (c_filer_name a) (c_filer_name b)
  end.

(** [GROUP BY sec_code, filer_name] with [COUNT] and [MAX(file_date)],
    then [ORDER BY sec_code], over the rows that passed [WHERE]. *)
Definition company_groups (docs : list Document) : list Company :=
  sort_by group_order
    (map (fun k =>
            mkCompany (fst k) (snd k) (List.length (group docs k))
                      (sql_max (map doc_file_date (group docs k))))
         (nodup key_dec (map company_key docs))).

(** What the statement of [get_company_list] returns over the table. *)
Definition get_company_list_rows (documents : list Document) : list Company :=
  company_groups (filter has_code documents).

(** The documents of a company: those with a security code that carry
    the pair ([sec_code], [filer_name]). *)
Definition documents_of (documents : list Document) (code name : string)
  : list Document :=
  filter (fun d =>
            has_code d
            && (str_of (doc_sec_code d) =? code) && (doc_filer_name d =? name))
         documents.


Section StripRows.
Variable strip : string -> string.

End StripRows.


End DbHelper.

(* ================================================================= *)
(** ** pages/03_Compare.py *)

Module Compare.

(** [if 1 in all_fin["is_consolidated"].values:
       all_fin = all_fin[all_fin["is_consolidated"] == 1]] *)
Definition consolidated_only (all_fin : list KeyFinancial) : list KeyFinancial :=
  if existsb (fun r => (is_consolidated r =? 1)%Z) all_fin
  then filter (fun r => (is_consolidated r =? 1)%Z) all_fin
  else all_fin.

(** [company_fin.sort_values("period_end", ascending=False)] *)
Definition by_period_desc (company_fin : list KeyFinancial) : list KeyFinancial :=
  sort_by (fun a b => String.leb (period_end b) (period_end a)) company_fin.

(** The loop that collects each selected company's latest row. *)
Definition latest_data (all_fin : list KeyFinancial)
           (selected_codes : list string) : list KeyFinancial :=
  flat_map
    (fun code =>
       let company_fin := filter (fun r => sec_code r =? code) all_fin in
       if negb (empty company_fin) then firstn 1 (by_period_desc company_fin)
       else [])
    selected_codes.

(** What the page does with a selection. *)
Inductive page : Type :=
| PleaseSelect                               (* st.info; st.stop() *)
| NotParsed                                  (* st.warning; st.stop() *)
| Shown (latest_data : list KeyFinancial).

Definition compare_page (v : list KeyFinancial) (selected_codes : list string)
  : page :=
  if empty selected_codes then PleaseSelect
  else
    let all_fin := DbHelper.get_multi_company_financials_rows v selected_codes in
    if empty all_fin then NotParsed
    else
      let all_fin := consolidated_only all_fin in
      Shown (latest_data all_fin selected_codes).

(** The keys of a dict filled in this order. *)
Fixpoint dict_keys (seen keys : list string) : list string :=
  match keys with
  | [] => []
  | k :: rest =>
      if existsb (String.eqb k) seen then dict_keys seen rest
      else k :: dict_keys (k :: seen) rest
  end.

(** The company columns of the comparison table: each table row is a
    dict keyed by [filer_name]. *)
Definition company_columns (latest_data : list KeyFinancial) : list string :=
  dict_keys [] (map filer_name latest_data).

(** *** Radar chart *)

Definition radar_metrics : list (KeyFinancial -> option Q) :=
  [sales; operating_income; net_income; total_assets; net_assets; operating_cf].

(** [d.get(metric, 0) or 0]: a zero becomes 0, a NaN stays (NaN is
    true in Python).  A column that is NULL in every fetched row holds
    [None] rather than NaN in pandas, which [or 0] turns into 0; the
    model does not separate that case. *)
Definition get_or_0 (metric : KeyFinancial -> option Q) (d : KeyFinancial) : f64 :=
  let v := to_f64 (metric d) in
  if truthy v then v else Fin 0.

(** The builtin [max]: keeps the first item unless a later one is
    greater; [None] stands for the [ValueError] on an empty list. *)
Definition py_max (vals : list f64) : option f64 :=
  match vals with
  | [] => None
  | x :: rest =>
      Some (fold_left (fun cur item => if fgt item cur then item else cur) rest x)
  end.

(** [max_vals[metric] = max(vals) if max(vals) > 0 else 1] *)
Definition max_val (latest_data : list KeyFinancial)
           (metric : KeyFinancial -> option Q) : option f64 :=
  let vals := map (fun d => fabs (get_or_0 metric d)) latest_data in
  match py_max vals with
  | Some m => Some (if fgt m (Fin 0) then m else Fin 1)
  | None => None
  end.

Fixpoint all_some {A : Type} (l : list (option A)) : option (list A) :=
  match l with
  | [] => Some []
  | Some x :: rest => option_map (cons x) (all_some rest)
  | None :: _ => None
  end.

(** The [r] values of one company's trace: the six normalized metrics
    and the first one again, to close the polygon. *)
Definition radar_values (latest_data : list KeyFinancial) (d : KeyFinancial)
  : option (list f64) :=
  match all_some
          (map (fun metric =>
                  option_map (fdiv (get_or_0 metric d))
                             (max_val latest_data metric))
               radar_metrics) with
  | Some values => Some (values ++ firstn 1 values)
  | None => None
  end.

Inductive radar_chart : Type :=
| NeedTwoCompanies                    (* st.info *)
| Traces (r : list (list f64))
| ValueError.

Definition radar (latest_data : list KeyFinancial) : radar_chart :=
  if negb (empty latest_data) && (2 <=? List.length latest_data)%nat then
    match all_some (map (radar_values latest_data) latest_data) with
    | Some traces => Traces traces
    | None => ValueError
    end
  else NeedTwoCompanies.

(** A radar value fit for an axis from 0 to 1. *)
Definition in_unit_interval (v : f64) : bool := fle (Fin 0) v && fle v (Fin 1).

(** Sample data. *)
Definition yen (oku : Z) : option Q := Some (inject_Z (oku * 100000000)).

Definition toyota : KeyFinancial :=
  mkKeyFinancial "7203" "Toyota" "2024-03-31" 1
    (yen 450000) (yen 53000) (yen 69000) (yen 49000)
    (yen 900000) (yen 350000) (yen 42000) (yen (-49000)) (yen 24000).

(** A company that files parent-only figures. *)
Definition sony_parent : KeyFinancial :=
  mkKeyFinancial "6758" "Sony" "2024-03-31" 0
    (yen 130000) (yen 12000) (yen 11000) (yen 9700)
    (yen 340000) (yen 78000) (yen 13000) (yen (-8000)) (yen (-3000)).

(** A company with a net loss in its latest consolidated period. *)
Definition loss_maker : KeyFinancial :=
  mkKeyFinancial "6753" "Sharp" "2024-03-31" 1
    (yen 23000) (yen (-200)) (yen (-70)) (yen (-1500))
    (yen 16000) (yen 1500) (yen 1200) (yen (-300)) (yen (-900)).

(** An earlier consolidated period of the same company. *)
Definition toyota_2023 : KeyFinancial :=
  mkKeyFinancial "7203" "Toyota" "2023-03-31" 1
    (yen 370000) (yen 27000) (yen 36000) (yen 24000)
    (yen 740000) (yen 290000) (yen 29000) (yen (-15000)) (yen (-500)).

Definition sample_view : list KeyFinancial :=
  [toyota_2023; sony_parent; toyota; loss_maker].

End Compare.

(** Notions used to state further properties of the comparison page. *)
Module CompareNotions.

(** Every radar metric of the row is present and not negative. *)
Definition nonneg_metrics (d : KeyFinancial) : bool :=
  forallb (fun metric : KeyFinancial -> option Q =>
             match metric d with
             | Some q => Qle_bool 0 q
             | None => false
             end)
          Compare.radar_metrics.

(** The rows of the view that belong to the selected companies. *)
Definition selected_rows (v : list KeyFinancial) (selected_codes : list string)
  : list KeyFinancial :=
  filter (fun r => existsb (String.eqb (sec_code r)) selected_codes) v.

End CompareNotions.

(* ================================================================= *)
(** ** pages/01_Search.py *)

Module Search.

Definition page_size : Z := 50.

(** [max(1, (len(all_companies) - 1) // page_size + 1)] *)
Definition total_pages (len : Z) : Z :=
  Z.max 1 ((len - 1) / page_size + 1).

(** [df.iloc[start:stop]] for [0 <= start <= stop], the only slices the
    page takes. *)
Definition iloc {A : Type} (df : list A) (start stop : Z) : list A :=
  firstn (Z.to_nat (stop - start)) (skipn (Z.to_nat start) df).

(** The rows of page [page] of the company list. *)
Definition page_df {A : Type} (all_companies : list A) (page : Z) : list A :=
  let start := ((page - 1) * page_size)%Z in
  let stop := (start + page_size)%Z in
  iloc all_companies start stop.

(** The page numbers the number input accepts: 1 to [total_pages]. *)
Definition page_numbers (len : Z) : list Z :=
  map Z.of_nat (seq 1 (Z.to_nat (total_pages len))).

End Search.

(* ================================================================= *)
(** ** pages/02_Company.py *)

Module Company.

(** The loop over [enumerate(options.items())]: the position of the
    first option whose code is [sec_code_param]. *)
Fixpoint find_code (sec_code_param : string) (items : list (string * string))
         (i : nat) : option nat :=
  match items with
  | [] => None
  | (_, code) :: rest =>
      if code =? sec_code_param then Some i
      else find_code sec_code_param rest (S i)
  end.

(** [default_idx], from the items of [options] (label, code) and the URL
    parameter, which is the empty string when absent. *)
Definition default_idx (options : list (string * string))
           (sec_code_param : string) : nat :=
  if negb (sec_code_param =? "") then
    match find_code sec_code_param options 0 with
    | Some i => i
    | None => O
    end
  else O.

(** The code of the option the select box starts on. *)
Definition preselected (options : list (string * string))
           (sec_code_param : string) : option string :=
  option_map snd (nth_error options (default_idx options sec_code_param)).

End Company.

(* ================================================================= *)
(** ** app.py *)

Module App.

(** [db.DOC_TYPE_NAMES.get] with a default that wraps the code: the
    label of a document type in the breakdown table and its bar chart. *)
Definition type_name (code : string) : string :=
  match DbHelper.dict_get code DbHelper.DOC_TYPE_NAMES with
  | Some name => name
  | None => ("その他(" ++ code ++ ")")%string
  end.

End App.

(* ================================================================= *)
(** ** pages/05_TextBlocks.py *)

Module TextBlocksPage.

Definition all_sections : string := "（すべて）".

Section Strip.
(** [str.strip], as Python defines it. *)
Variable strip : string -> string.

(** The entries of [search_params]; [None] is an absent key. *)
Definition sec_code_param (sec_code_input : string) : option string :=
  if negb (strip sec_code_input =? "") then Some (strip sec_code_input)
  else None.

Definition section_param (selected_section : string) : option string :=
  if negb (selected_section =? all_sections) then Some selected_section
  else None.

Definition keyword_param (keyword : string) : option string :=
  if negb (strip keyword =? "") then Some (strip keyword) else None.

(** The call of [db.search_text_blocks] with the entries of
    [search_params] and the slider's [limit], over the table. *)
Definition results (table : list TextBlock)
           (sec_code_input selected_section keyword : string) (limit : Z)
  : list TextBlock :=
  DbHelper.search_text_blocks_rows table
    (sec_code_param sec_code_input) (section_param selected_section)
    (keyword_param keyword) None limit.

Inductive page : Type :=
| AskForFilter                      (* st.info; st.stop() *)
| NothingFound                      (* st.warning; st.stop() *)
| Blocks (rows : list TextBlock).

Definition is_none {A : Type} (x : option A) : bool :=
  match x with
  | None => true
  | Some _ => false
  end.

Definition text_page (table : list TextBlock)
           (sec_code_input selected_section keyword : string) (limit : Z)
  : page :=
  let rows := results table sec_code_input selected_section keyword limit in
  if empty rows then
    if is_none (sec_code_param sec_code_input)
       && is_none (section_param selected_section)
       && is_none (keyword_param keyword)
    then AskForFilter
    else NothingFound
  else Blocks rows.
End Strip.

End TextBlocksPage.

(** The sorted column as the screening table shows it: the oku-yen
    columns are rounded to one decimal for display, the two ratios were
    rounded when they were derived. *)
Module ScreeningDisplay.

Definition shown_value (s : Screening.sort_option) (r : KeyFinancial) : f64 :=
  match s with
  | Screening.BySales => fround1 (Screening.sales_oku r)
  | Screening.ByOperatingIncome => fround1 (Screening.operating_income_oku r)
  | Screening.ByNetIncome => fround1 (Screening.net_income_oku r)
  | Screening.ByTotalAssets => fround1 (Screening.total_assets_oku r)
  | Screening.ByEquityRatio => Screening.equity_ratio r
  | Screening.ByOpMargin => Screening.op_margin r
  end.

End ScreeningDisplay.

(** Sample inputs for the further properties. *)
Module Samples.

(** Sales between 500 and 100 oku-yen: the bounds cross. *)
Definition crossing_sales : Screening.bounds :=
  Screening.mkBounds (Some 500) (Some 100)
    None None None None None None None None None None.

(** Sales of exactly 260 oku-yen. *)
Definition sales_exactly_260 : Screening.bounds :=
  Screening.mkBounds (Some 260) (Some 260)
    None None None None None None None None None None.

(** A database file without any table. *)
Definition empty_db : DbHelper.store :=
  DbHelper.mkStore true (fun _ _ => inl "no such table: documents").

(** Another company with consolidated figures. *)
Definition honda : KeyFinancial :=
  mkKeyFinancial "7267" "Honda" "2024-03-31" 1
    (Compare.yen 204000) (Compare.yen 13800) (Compare.yen 16400)
    (Compare.yen 11000) (Compare.yen 297000) (Compare.yen 130000)
    (Compare.yen 7400) (Compare.yen (-8600)) (Compare.yen 0).

End Samples.

(* ================================================================= *)
(** * Properties *)


(** ** The definitions at work *)

Example rint_ties_to_even : rint (5 # 2) = 2%Z /\ rint (7 # 2) = 4%Z.
Proof. split; reflexivity. Qed.

Example equity_ratio_sample :
  Screening.equity_ratio Screening.no_op_income = Fin (inject_Z 333 / 10).
Proof. reflexivity. Qed.

(** In binary64 the quotient 11 / 2000 times 100 falls just below 0.55,
    so that the ratio rounds to 0.5, where exact arithmetic rounds the
    tie to 0.6; under a lower bound of 0.6 the page then shows no row.
    Likewise 23 / 80 gives the binary64 number nearest to 28.7, not
    28.8. *)
Example binary64_rounds_the_computed_number :
  same_number (Screening64.equity_ratio binary64_ops Screening64.thin_equity)
              (Fin (5 # 10)) = true
  /\ same_number (Screening64.equity_ratio exact_ops Screening64.thin_equity)
                 (Fin (6 # 10)) = true
  /\ Screening64.screening_page binary64_ops [Screening64.thin_equity]
       Screening64.equity_at_least_06 Screening.BySales
     = Screening.NoMatch
  /\ same_number (Screening64.sales_oku binary64_ops Screening64.thin_equity)
                 (Fin 10) = true
  /\ same_number
       (Screening64.equity_ratio binary64_ops (Screening64.with_equity 23 80))
       (of_float (to_float (287 # 10))) = true
  /\ same_number
       (Screening64.equity_ratio exact_ops (Screening64.with_equity 23 80))
       (Fin (288 # 10)) = true.
Proof. repeat split; vm_compute; reflexivity. Qed.

Example division_by_zero_is_infinite :
  fdiv (Fin 1) (Fin 0) = Inf false /\ fdiv (Fin 0) (Fin 0) = NaN
  /\ fge (Inf false) (Fin 30) = true /\ fge NaN (Fin 30) = false.
Proof. repeat split; reflexivity. Qed.

Example like_samples :
  DbHelper.like "%risk%" "Exchange rates are a RISK factor." = true
  /\ DbHelper.like "%a_c%" "xxabcxx" = true
  /\ DbHelper.like "%a_c%" "ac" = false.
Proof. repeat split; reflexivity. Qed.

Example like_reads_characters :
  DbHelper.utf8_chars "リスクA" = ["リ"; "ス"; "ク"; "A"]
  /\ DbHelper.like "%スク%" "事業等のリスク" = true
  /\ DbHelper.like "%_x%" "あx" = true
  /\ DbHelper.like "%__x%" "あx" = false
  /\ DbHelper.like ("%a" ++ String Ascii.zero "b%") "xa" = true.
Proof. repeat split; vm_compute; reflexivity. Qed.

Example placeholders_sample :
  DbHelper.sent
    (DbHelper.get_multi_company_financials DbHelper.minimal_db ["7203"; "6758"])
  = [((DbHelper.multi_company_sql_head ++ "?,?"
       ++ DbHelper.multi_company_sql_tail)%string,
      [DbHelper.PText "7203"; DbHelper.PText "6758"])].
Proof. reflexivity. Qed.

Example screening_rows_sample :
  DbHelper.get_screening_data_rows Compare.sample_view
  = [Compare.loss_maker; Compare.toyota].
Proof. reflexivity. Qed.

(** ** Lists *)

Lemma filter_andb {A : Type} (f g : A -> bool) (l : list A) :
  filter g (filter f l) = filter (fun x => f x && g x) l.
Proof.
  induction l as [|x l IH]; simpl; [reflexivity|].
  destruct (f x); simpl; [destruct (g x)|]; rewrite IH; reflexivity.
Qed.

Lemma filter_all {A : Type} (l : list A) : filter (fun _ => true) l = l.
Proof. induction l; simpl; congruence. Qed.

Lemma filter_none {A : Type} (f : A -> bool) (l : list A) :
  (forall x, In x l -> f x = false) -> filter f l = [].
Proof.
  induction l as [|x l IH]; simpl; intros H; [reflexivity|].
  rewrite (H x (or_introl eq_refl)). apply IH. intros y Hy. apply H. now right.
Qed.

Lemma empty_false_iff {A : Type} (l : list A) : empty l = false <-> l <> [].
Proof. destruct l; simpl; split; congruence. Qed.

(** ** Order on cells *)

Lemma fle_trans a b c : fle a b = true -> fle b c = true -> fle a c = true.
Proof.
  destruct a as [|[|]|x], b as [|[|]|y], c as [|[|]|z]; simpl;
    try congruence.
  rewrite !Qle_bool_iff. apply Qle_trans.
Qed.

Lemma fle_total a b : isna a = false -> isna b = false ->
  fle a b = true \/ fle b a = true.
Proof.
  destruct a as [|[|]|x], b as [|[|]|y]; simpl; try congruence; auto.
  intros _ _. rewrite !Qle_bool_iff.
  destruct (Qlt_le_dec x y) as [H|H]; [left; now apply Qlt_le_weak|now right].
Qed.

Lemma fle_notna a b : fle a b = true -> isna a = false /\ isna b = false.
Proof. destruct a as [|[|]|x], b as [|[|]|y]; simpl; auto; congruence. Qed.

Section SortBy.
Context {A : Type} (before : A -> A -> bool).
Hypothesis before_total : forall x y, before x y = true \/ before y x = true.
Hypothesis before_trans :
  forall x y z, before x y = true -> before y z = true -> before x z = true.

Lemma insert_by_perm x l : Permutation (insert_by before x l) (x :: l).
Proof.
  induction l as [|y l IH]; simpl; [reflexivity|].
  destruct (before x y); [reflexivity|].
  rewrite IH. apply perm_swap.
Qed.

Lemma sort_by_perm l : Permutation (sort_by before l) l.
Proof.
  induction l as [|x l IH]; simpl; [reflexivity|].
  rewrite insert_by_perm. now constructor.
Qed.

Lemma insert_by_sorted x l :
  StronglySorted (fun a b => before a b = true) l ->
  StronglySorted (fun a b => before a b = true) (insert_by before x l).
Proof.
  induction 1 as [|y l Hl IH Hy]; simpl.
  - repeat constructor.
  - destruct (before x y) eqn:E.
    + constructor; [now constructor|].
      constructor; [exact E|].
      eapply Forall_impl; [|exact Hy].
      intros z Hz. eapply before_trans; eauto.
    + constructor; [exact IH|].
      eapply Permutation_Forall; [symmetry; apply insert_by_perm|].
      constructor; [|exact Hy].
      destruct (before_total x y) as [H|H]; [congruence|exact H].
Qed.

Lemma sort_by_sorted l :
  StronglySorted (fun a b => before a b = true) (sort_by before l).
Proof.
  induction l as [|x l IH]; simpl; [constructor|].
  now apply insert_by_sorted.
Qed.
End SortBy.

Lemma goes_before_total asc a b :
  Screening.goes_before asc a b = true \/ Screening.goes_before asc b a = true.
Proof.
  unfold Screening.goes_before, notna.
  destruct (isna b) eqn:Hb; [now left|].
  destruct (isna a) eqn:Ha; [now right|]. simpl.
  destruct asc; destruct (fle_total a b Ha Hb); auto.
Qed.

Lemma goes_before_trans asc a b c :
  Screening.goes_before asc a b = true ->
  Screening.goes_before asc b c = true ->
  Screening.goes_before asc a c = true.
Proof.
  unfold Screening.goes_before, notna.
  destruct (isna c) eqn:Hc; [reflexivity|]. simpl.
  destruct (isna b) eqn:Hb; simpl; [discriminate|].
  destruct (isna a) eqn:Ha; simpl; [discriminate|].
  destruct asc; intros H1 H2; eauto using fle_trans.
Qed.

Lemma sort_values_perm key asc df :
  Permutation (Screening.sort_values key asc df) df.
Proof. apply sort_by_perm. Qed.

Lemma sort_values_sorted key asc df :
  StronglySorted
    (fun r1 r2 => Screening.goes_before asc (key r1) (key r2) = true)
    (Screening.sort_values key asc df).
Proof.
  apply (sort_by_sorted (fun r1 r2 => Screening.goes_before asc (key r1) (key r2))).
  - intros x y. apply goes_before_total.
  - intros x y z. apply goes_before_trans.
Qed.

(** ** Screening *)

Section ScreeningFacts.
Import Screening.

Lemma keep_ge_filter col lo df :
  keep_ge col lo df = filter (fun r => meets_lower lo (col r)) df.
Proof. destruct lo; simpl; [reflexivity|now rewrite filter_all]. Qed.

Lemma keep_le_filter col hi df :
  keep_le col hi df = filter (fun r => meets_upper hi (col r)) df.
Proof. destruct hi; simpl; [reflexivity|now rewrite filter_all]. Qed.

Lemma apply_filters_filter b df : apply_filters b df = filter (keeps b) df.
Proof.
  unfold apply_filters, dropna_sales.
  rewrite !keep_ge_filter, !keep_le_filter, !filter_andb.
  apply filter_ext. intros r.
  unfold keeps, within, metrics, has_sales, notna; simpl.
  destruct (sales r); simpl; rewrite ?andb_true_r, ?andb_false_r;
    [|reflexivity].
  apply eq_true_iff_eq. rewrite !andb_true_iff. tauto.
Qed.

Lemma output_perm data b s :
  Permutation (output (screening_page data b s)) (filter (keeps b) data).
Proof.
  unfold screening_page. rewrite apply_filters_filter.
  destruct data as [|r0 data]; [reflexivity|].
  cbv beta iota delta [empty].
  destruct (filter (keeps b) (r0 :: data)) as [|r1 rest];
    [reflexivity|].
  cbv beta iota delta [negb].
  destruct (sort_map s) as [skey sasc].
  exact (sort_values_perm skey sasc (r1 :: rest)).
Qed.

Lemma within_iff b r :
  within b r = true <->
  forall m, meets_lower (lower b m) (value m r) = true
            /\ meets_upper (upper b m) (value m r) = true.
Proof.
  unfold within. rewrite forallb_forall. split.
  - intros H m. apply andb_true_iff, H. destruct m; simpl; tauto.
  - intros H m _. apply andb_true_iff, H.
Qed.

Lemma within_no_bounds r : within no_bounds r = true.
Proof. reflexivity. Qed.
End ScreeningFacts.

Section ScreeningClaims.
Import Screening.

Lemma goes_before_desc a b :
  goes_before false a b = true <-> desc_nulls_last a b.
Proof.
  unfold goes_before, desc_nulls_last, notna.
  rewrite orb_true_iff, andb_true_iff, negb_true_iff. tauto.
Qed.

Lemma output_sorted data b s :
  StronglySorted
    (fun r1 r2 => desc_nulls_last (sort_key s r1) (sort_key s r2))
    (output (screening_page data b s)).
Proof.
  assert (Hw : forall (key : KeyFinancial -> f64) l,
    StronglySorted (fun r1 r2 => goes_before false (key r1) (key r2) = true) l ->
    StronglySorted (fun r1 r2 => desc_nulls_last (key r1) (key r2)) l).
  { intros key l H. induction H as [|x l Hl IH Hx]; constructor; auto.
    eapply Forall_impl; [|exact Hx]. intros y. apply goes_before_desc. }
  unfold screening_page.
  destruct (empty data); [constructor|].
  destruct (empty (apply_filters b data)); simpl; [constructor|].
  destruct s; simpl; apply Hw, sort_values_sorted.
Qed.

Lemma In_output data b s r :
  In r (output (screening_page data b s)) <-> In r data /\ keeps b r = true.
Proof.
  rewrite <- filter_In. split; apply Permutation_in;
    [|symmetry]; apply output_perm.
Qed.

(** C10.  A row whose value for a metric is null is left out as soon as
    that metric has a lower or an upper bound, whereas with both bounds
    of the metric empty the same row is shown whenever it has a sales
    value and meets the bounds of the other metrics. *)
Theorem null_metric_excluded_under_bound
        (data : list KeyFinancial) (b : bounds) (s : sort_option)
        (m : metric) (r : KeyFinancial) :
  isna (value m r) = true ->
  ((lower b m <> None \/ upper b m <> None) ->
     ~ In r (output (screening_page data b s)))
  /\ (lower b m = None -> upper b m = None ->
      In r data -> sales r <> None ->
      (forall m', m' <> m ->
         meets_lower (lower b m') (value m' r) = true
         /\ meets_upper (upper b m') (value m' r) = true) ->
      In r (output (screening_page data b s))).
Proof.
  intros Hna. split.
  - intros Hset Hin.
    apply In_output in Hin. destruct Hin as [_ Hk].
    apply andb_true_iff in Hk. destruct Hk as [_ Hw].
    destruct (proj1 (within_iff b r) Hw m) as [Hlo Hhi].
    destruct (value m r); try discriminate.
    destruct Hset as [Hset|Hset].
    + destruct (lower b m); [discriminate Hlo|congruence].
    + destruct (upper b m); [discriminate Hhi|congruence].
  - intros Hlo Hhi Hin Hs Hothers. apply In_output. split; [exact Hin|].
    unfold keeps. apply andb_true_iff. split.
    + unfold has_sales. destruct (sales r); congruence.
    + apply within_iff. intros m'.
      assert (D : m' = m \/ m' <> m) by (destruct m', m; auto; right; discriminate).
      destruct D as [->|D]; [|now apply Hothers].
      now rewrite Hlo, Hhi.
Qed.
End ScreeningClaims.

Lemma null_metric_excluded_under_bound_witness :
  isna (Screening.value Screening.OperatingIncome Screening.no_op_income) = true
  /\ ~ In Screening.no_op_income
        (Screening.output
           (Screening.screening_page [Screening.no_op_income]
              Screening.op_at_least_10 Screening.BySales))
  /\ In Screening.no_op_income
        (Screening.output
           (Screening.screening_page [Screening.no_op_income]
              Screening.no_bounds Screening.BySales)).
Proof.
  split; [reflexivity|]. split.
  - apply (null_metric_excluded_under_bound [Screening.no_op_income]
             Screening.op_at_least_10 Screening.BySales
             Screening.OperatingIncome Screening.no_op_income eq_refl).
    left. discriminate.
  - simpl. left. reflexivity.
Defined.

(** ** Rounding *)

Lemma rint_close (q : Q) : Qabs (inject_Z (rint q) - q) <= 1 # 2.
Proof.
  unfold rint.
  pose proof (Qfloor_le q) as H1. pose proof (Qlt_floor q) as H2.
  rewrite inject_Z_plus in H2.
  set (f := Qfloor q) in *. change (inject_Z 1) with 1 in H2.
  destruct (Qcompare (q - inject_Z f) (1 # 2)) eqn:E.
  - apply Qeq_alt in E.
    destruct (Z.even f); [|rewrite inject_Z_plus; change (inject_Z 1) with 1];
      apply Qabs_Qle_condition; split; lra.
  - apply Qlt_alt in E. apply Qabs_Qle_condition; split; lra.
  - apply Qgt_alt in E. rewrite inject_Z_plus. change (inject_Z 1) with 1.
    apply Qabs_Qle_condition; split; lra.
Qed.

Lemma Qzero_iff (q : Q) : Qzero q = true <-> q == 0.
Proof. apply Qeq_bool_iff. Qed.

Lemma Qneg_iff (q : Q) : Qneg q = true <-> q < 0.
Proof.
  unfold Qneg, Qlt. simpl. rewrite Z.ltb_lt. lia.
Qed.

Lemma Qneg_le (q : Q) : Qneg q = negb (Qle_bool 0 q).
Proof.
  unfold Qneg, Qle_bool. simpl.
  rewrite Z.mul_1_r. apply eq_true_iff_eq.
  rewrite negb_true_iff, Z.ltb_lt, Z.leb_gt. reflexivity.
Qed.

(** ** Screening over binary64 arithmetic *)

Section Screening64Facts.
Import Screening.
Variable o : float_ops.

Lemma oku_column (yen : option Q) :
  fdiv_in o (to_f64 yen) oku = Screening64.in_oku_yen o yen.
Proof. destruct yen; reflexivity. Qed.

Lemma fround1_in_Inf (s : bool) : fround1_in o (Inf s) = Inf s.
Proof. destruct s; reflexivity. Qed.

Lemma fmul_in_Inf_100 (s : bool) : fmul_in o (Inf s) (Fin 100) = Inf s.
Proof. destruct s; reflexivity. Qed.

(** The composed column operations on a numerator and a denominator. *)
Lemma pct_column_none_l den :
  fround1_in o (fmul_in o (fdiv_in o NaN (to_f64 den)) (Fin 100)) = NaN.
Proof. reflexivity. Qed.

Lemma pct_column_none_r num :
  fround1_in o (fmul_in o (fdiv_in o (to_f64 num) NaN) (Fin 100)) = NaN.
Proof. destruct num; reflexivity. Qed.

Lemma pct_column_zero (n d : Q) :
  Qzero d = true ->
  fround1_in o (fmul_in o (fdiv_in o (Fin n) (Fin d)) (Fin 100))
  = if Qzero n then NaN else Inf (Qneg n).
Proof.
  intros Hd. cbn [fdiv_in]. rewrite Hd.
  destruct (Qzero n); [reflexivity|].
  now rewrite fmul_in_Inf_100, fround1_in_Inf.
Qed.

Lemma fround1_in_spec (v : f64) :
  fround1_in o v = Screening64.round_1_decimal o v.
Proof.
  destruct v as [|s|x]; [reflexivity|destruct s; reflexivity|].
  unfold fround1_in, Screening64.round_1_decimal. cbn [fmul_in Screening64.on_finite].
  destruct (mul64 o x 10) as [|s|y];
    [reflexivity|destruct s; reflexivity|reflexivity].
Qed.

Lemma fmul_in_100_spec (v : f64) :
  fmul_in o v (Fin 100)
  = Screening64.on_finite (fun q => mul64 o q 100) v.
Proof. destruct v as [|s|x]; [reflexivity|destruct s; reflexivity|reflexivity]. Qed.

Lemma pct_column_nonzero (n d : Q) :
  Qzero d = false ->
  fround1_in o (fmul_in o (fdiv_in o (Fin n) (Fin d)) (Fin 100))
  = Screening64.percent o n d.
Proof.
  intros Hd. cbn [fdiv_in]. rewrite Hd.
  now rewrite fround1_in_spec, fmul_in_100_spec.
Qed.

Lemma pct_column (num den : option Q) :
  fround1_in o (fmul_in o (fdiv_in o (to_f64 num) (to_f64 den)) (Fin 100))
  = Screening64.percentage o num den.
Proof.
  destruct num as [n|], den as [d|]; try reflexivity.
  unfold Screening64.percentage. cbn [to_f64].
  change (Qeq_bool d 0) with (Qzero d). change (Qeq_bool n 0) with (Qzero n).
  destruct (Qzero d) eqn:Ed.
  - rewrite pct_column_zero by exact Ed.
    destruct (Qzero n); [reflexivity|].
    rewrite Qneg_le. now destruct (Qle_bool 0 n).
  - now apply pct_column_nonzero.
Qed.

Lemma apply_filters64_filter b df :
  Screening64.apply_filters o b df = filter (Screening64.qualifies o b) df.
Proof.
  unfold Screening64.apply_filters, dropna_sales.
  rewrite !keep_ge_filter, !keep_le_filter, !filter_andb.
  apply filter_ext. intros r.
  unfold Screening64.qualifies, metrics, has_sales, notna.
  cbn [forallb Screening64.metric_value lower upper].
  unfold Screening64.sales_oku, Screening64.operating_income_oku,
    Screening64.net_income_oku, Screening64.total_assets_oku,
    Screening64.equity_ratio, Screening64.op_margin.
  rewrite !oku_column, !pct_column.
  destruct (sales r) eqn:Es; cbn [to_f64 isna negb];
    rewrite ?andb_true_r, ?andb_false_r; [|reflexivity].
  apply eq_true_iff_eq. rewrite !andb_true_iff. tauto.
Qed.

Lemma output64_perm data b s :
  Permutation (output (Screening64.screening_page o data b s))
              (filter (Screening64.qualifies o b) data).
Proof.
  unfold Screening64.screening_page. rewrite apply_filters64_filter.
  destruct data as [|r0 data]; [reflexivity|].
  cbv beta iota delta [empty].
  destruct (filter (Screening64.qualifies o b) (r0 :: data)) as [|r1 rest];
    [reflexivity|].
  cbv beta iota delta [negb].
  destruct (Screening64.sort_map o s) as [skey sasc].
  exact (sort_values_perm skey sasc (r1 :: rest)).
Qed.

Lemma In_output64 data b s r :
  In r (output (Screening64.screening_page o data b s))
  <-> In r data /\ Screening64.qualifies o b r = true.
Proof.
  rewrite <- filter_In. split; apply Permutation_in;
    [|symmetry]; apply output64_perm.
Qed.

Lemma qualifies_iff b r :
  Screening64.qualifies o b r = true <->
  sales r <> None
  /\ forall m,
       meets_lower (lower b m) (Screening64.metric_value o m r) = true
       /\ meets_upper (upper b m) (Screening64.metric_value o m r) = true.
Proof.
  unfold Screening64.qualifies. rewrite andb_true_iff, forallb_forall.
  assert (Hs : has_sales r = true <-> sales r <> None).
  { unfold has_sales. destruct (sales r); split; congruence. }
  rewrite Hs. split.
  - intros [H1 H2]. split; [exact H1|].
    intros m. apply andb_true_iff, H2. destruct m; simpl; tauto.
  - intros [H1 H2]. split; [exact H1|].
    intros m _. apply andb_true_iff, H2.
Qed.

Lemma sort_map64_key s r :
  fst (Screening64.sort_map o s) r
  = Screening64.metric_value o (Screening64.selected_metric s) r.
Proof.
  destruct s; cbn [Screening64.sort_map fst Screening64.selected_metric
                   Screening64.metric_value];
    unfold Screening64.sales_oku, Screening64.operating_income_oku,
      Screening64.net_income_oku, Screening64.total_assets_oku,
      Screening64.equity_ratio, Screening64.op_margin;
    first [apply oku_column | apply pct_column].
Qed.

Lemma sort_map64_descending s : snd (Screening64.sort_map o s) = false.
Proof. destruct s; reflexivity. Qed.

Lemma output64_sorted data b s :
  StronglySorted
    (fun r1 r2 =>
       desc_nulls_last
         (Screening64.metric_value o (Screening64.selected_metric s) r1)
         (Screening64.metric_value o (Screening64.selected_metric s) r2))
    (output (Screening64.screening_page o data b s)).
Proof.
  unfold Screening64.screening_page.
  destruct (empty data); [constructor|].
  destruct (empty (Screening64.apply_filters o b data)); simpl; [constructor|].
  pose proof (sort_map64_key s) as Hk.
  pose proof (sort_map64_descending s) as Hd.
  destruct (Screening64.sort_map o s) as [skey sasc].
  cbn [fst snd] in Hk, Hd. subst sasc. cbn [output].
  pose proof (sort_values_sorted skey false
                (Screening64.apply_filters o b data)) as H.
  induction H as [|x l Hl IH Hx]; constructor; [exact IH|].
  eapply Forall_impl; [|exact Hx].
  intros y Hy. cbv beta in Hy. rewrite !Hk in Hy.
  now apply goes_before_desc.
Qed.

(** C1.  Over any binary64 arithmetic, the screening result holds
    exactly the snapshot rows that have a sales value and meet every
    bound that is set (inclusive), where sales, operating income, net
    income and total assets are taken in oku-yen (the yen amount over
    10^8) and the equity ratio and the operating margin in percent; each
    row is shown as often as the snapshot has it; without bounds these
    are the rows with a sales value; when no row qualifies the page
    shows an empty result rather than an error; and the rows shown are
    in descending order of the metric the sort option names, nulls
    last. *)
Theorem screening_filter_postcondition
        (data : list KeyFinancial) (b : bounds) (s : sort_option) :
  let out := output (Screening64.screening_page o data b s) in
  (forall r, In r out <->
     In r data /\ sales r <> None /\
     forall m,
       meets_lower (lower b m) (Screening64.metric_value o m r) = true
       /\ meets_upper (upper b m) (Screening64.metric_value o m r) = true)
  /\ Permutation out (filter (Screening64.qualifies o b) data)
  /\ Permutation (output (Screening64.screening_page o data no_bounds s))
                 (filter has_sales data)
  /\ ((forall r, In r data -> Screening64.qualifies o b r = false) ->
      out = [] /\
      Screening64.screening_page o data b s
      = if empty data then NoData else NoMatch)
  /\ StronglySorted
       (fun r1 r2 =>
          desc_nulls_last
            (Screening64.metric_value o (Screening64.selected_metric s) r1)
            (Screening64.metric_value o (Screening64.selected_metric s) r2))
       out.
Proof.
  cbv zeta. split; [|split; [|split; [|split]]].
  - intros r. rewrite In_output64, qualifies_iff. tauto.
  - apply output64_perm.
  - rewrite output64_perm. erewrite filter_ext; [reflexivity|].
    intros r. unfold Screening64.qualifies. apply andb_true_r.
  - intros H. split.
    + pose proof (output64_perm data b s) as P.
      rewrite (filter_none _ _ H) in P. now apply Permutation_nil.
    + unfold Screening64.screening_page. rewrite apply_filters64_filter.
      destruct (empty data); [reflexivity|].
      now rewrite (filter_none _ _ H).
  - apply output64_sorted.
Qed.

(** The percentage ratio both derived columns compute, case by case. *)
Lemma pct_ratio_cases (num den : option Q) :
  Screening64.pct_ratio_spec o num den
    (fround1_in o (fmul_in o (fdiv_in o (to_f64 num) (to_f64 den)) (Fin 100))).
Proof.
  unfold Screening64.pct_ratio_spec, Screening64.ratio_case.
  destruct num as [n|], den as [d|];
    try (split; [reflexivity || (intros _; apply pct_column_none_r)
                             || (intros _; reflexivity)|];
         split; [intros ? ? ? ?; discriminate|];
         left; split; [auto|]; try reflexivity; apply pct_column_none_r).
  cbn [to_f64]. destruct (Qzero d) eqn:Ed.
  - rewrite pct_column_zero by exact Ed.
    assert (Hd : d == 0) by now apply Qzero_iff.
    destruct (Qzero n) eqn:En.
    + assert (Hn : n == 0) by now apply Qzero_iff.
      split; [intros [H|H]; discriminate H|]. split.
      * intros n' d' E1 E2. injection E1 as <-. injection E2 as <-.
        repeat split; try reflexivity; intros; exfalso; lra.
      * right. left. exists n, d. auto.
    + assert (Hn : ~ n == 0) by (rewrite <- Qzero_iff; congruence).
      destruct (Qneg n) eqn:Eg.
      * assert (Hlt : n < 0) by now apply Qneg_iff.
        split; [intros [H|H]; discriminate H|]. split.
        -- intros n' d' E1 E2. injection E1 as <-. injection E2 as <-.
           repeat split; try reflexivity; intros; exfalso; lra.
        -- right. right. right. left. exists n, d. auto.
      * assert (Hgt : 0 < n).
        { assert (~ n < 0) by (rewrite <- Qneg_iff; congruence). lra. }
        split; [intros [H|H]; discriminate H|]. split.
        -- intros n' d' E1 E2. injection E1 as <-. injection E2 as <-.
           repeat split; try reflexivity; intros; exfalso; lra.
        -- right. right. left. exists n, d. auto.
  - rewrite pct_column_nonzero by exact Ed.
    assert (Hd : ~ d == 0) by (rewrite <- Qzero_iff; congruence).
    split; [intros [H|H]; discriminate H|]. split.
    + intros n' d' E1 E2. injection E1 as <-. injection E2 as <-.
      repeat split; try reflexivity; intros; exfalso; tauto.
    + right. right. right. right. exists n, d. auto.
Qed.

(** C3, as amended.  For every row and over any binary64 arithmetic,
    [equity_ratio] is [net_assets / total_assets * 100] and [op_margin]
    is [operating_income / sales * 100], each computed in binary64 and
    rounded by [Series.round(1)]; the result is null when the numerator
    or the denominator is null or when both are zero, it is plus or
    minus infinity (not null) when the denominator is zero and the
    numerator is not; one of these cases applies to every row, so that
    a value is always produced and nothing is raised. *)
Theorem ratio_derivation (r : KeyFinancial) :
  Screening64.pct_ratio_spec o (net_assets r) (total_assets r)
                             (Screening64.equity_ratio o r)
  /\ Screening64.pct_ratio_spec o (operating_income r) (sales r)
                                (Screening64.op_margin o r).
Proof. split; apply pct_ratio_cases. Qed.

End Screening64Facts.

(** C3 as stated fails: with total assets of zero and positive net
    assets the equity ratio is plus infinity, which is not null, and a
    lower bound on the equity ratio keeps the row. *)
Lemma equity_ratio_zero_assets_not_null :
  total_assets Screening.shell_company = Some 0
  /\ (forall o, Screening64.equity_ratio o Screening.shell_company = Inf false)
  /\ isna (Inf false) = false
  /\ (forall o,
        Screening.output
          (Screening64.screening_page o [Screening.shell_company]
             Screening64.equity_at_least_30 Screening.BySales)
        = [Screening.shell_company])
  /\ ~ (forall o r d, total_assets r = Some d -> d == 0 ->
                      isna (Screening64.equity_ratio o r) = true).
Proof.
  split; [reflexivity|]. split; [intros o; reflexivity|].
  split; [reflexivity|]. split; [intros o; reflexivity|].
  intros H.
  specialize (H exact_ops Screening.shell_company 0 eq_refl (Qeq_refl 0)).
  discriminate H.
Qed.

(** With exact arithmetic the page over a [float_ops] is the page of
    [Screening]. *)
Lemma fround1_in_exact (a : f64) : fround1_in exact_ops a = fround1 a.
Proof. destruct a as [|s|x]; [reflexivity|destruct s; reflexivity|reflexivity]. Qed.

Lemma fdiv_in_exact (a b : f64) : fdiv_in exact_ops a b = fdiv a b.
Proof. destruct a, b; reflexivity. Qed.

Lemma fmul_in_exact (a b : f64) : fmul_in exact_ops a b = fmul a b.
Proof. destruct a, b; reflexivity. Qed.

Lemma sort_by_pointwise {A : Type} (f g : A -> A -> bool) (l : list A) :
  (forall x y, f x y = g x y) -> sort_by f l = sort_by g l.
Proof.
  intros H. induction l as [|x l IH]; [reflexivity|].
  simpl. rewrite IH. generalize (sort_by g l). intros m.
  induction m as [|y m IHm]; [reflexivity|].
  simpl. rewrite H, IHm. reflexivity.
Qed.

Lemma keep_ge_ext col1 col2 lo df :
  (forall r, col1 r = col2 r) ->
  Screening.keep_ge col1 lo df = Screening.keep_ge col2 lo df.
Proof.
  intros H. destruct lo; [|reflexivity]. simpl.
  apply filter_ext. intros r. now rewrite H.
Qed.

Lemma keep_le_ext col1 col2 hi df :
  (forall r, col1 r = col2 r) ->
  Screening.keep_le col1 hi df = Screening.keep_le col2 hi df.
Proof.
  intros H. destruct hi; [|reflexivity]. simpl.
  apply filter_ext. intros r. now rewrite H.
Qed.

Lemma screening_page_exact data b s :
  Screening64.screening_page exact_ops data b s
  = Screening.screening_page data b s.
Proof.
  assert (E1 : forall r, Screening64.sales_oku exact_ops r = Screening.sales_oku r)
    by (intros r; apply fdiv_in_exact).
  assert (E2 : forall r, Screening64.operating_income_oku exact_ops r
                         = Screening.operating_income_oku r)
    by (intros r; apply fdiv_in_exact).
  assert (E3 : forall r, Screening64.net_income_oku exact_ops r
                         = Screening.net_income_oku r)
    by (intros r; apply fdiv_in_exact).
  assert (E4 : forall r, Screening64.total_assets_oku exact_ops r
                         = Screening.total_assets_oku r)
    by (intros r; apply fdiv_in_exact).
  assert (E5 : forall r, Screening64.equity_ratio exact_ops r
                         = Screening.equity_ratio r).
  { intros r. unfold Screening64.equity_ratio, Screening.equity_ratio.
    now rewrite fround1_in_exact, fmul_in_exact, fdiv_in_exact. }
  assert (E6 : forall r, Screening64.op_margin exact_ops r
                         = Screening.op_margin r).
  { intros r. unfold Screening64.op_margin, Screening.op_margin.
    now rewrite fround1_in_exact, fmul_in_exact, fdiv_in_exact. }
  assert (F : forall df, Screening64.apply_filters exact_ops b df
                         = Screening.apply_filters b df).
  { intros df. unfold Screening64.apply_filters, Screening.apply_filters.
    cbv zeta.
    rewrite (keep_ge_ext _ _ _ _ E1), (keep_le_ext _ _ _ _ E1).
    rewrite (keep_ge_ext _ _ _ _ E2), (keep_le_ext _ _ _ _ E2).
    rewrite (keep_ge_ext _ _ _ _ E3), (keep_le_ext _ _ _ _ E3).
    rewrite (keep_ge_ext _ _ _ _ E5), (keep_le_ext _ _ _ _ E5).
    rewrite (keep_ge_ext _ _ _ _ E6), (keep_le_ext _ _ _ _ E6).
    rewrite (keep_ge_ext _ _ _ _ E4), (keep_le_ext _ _ _ _ E4).
    reflexivity. }
  unfold Screening64.screening_page, Screening.screening_page.
  rewrite F. destruct (empty data); [reflexivity|].
  destruct (negb (empty (Screening.apply_filters b data))); [|reflexivity].
  destruct s; cbn [Screening64.sort_map Screening.sort_map]; f_equal;
    unfold Screening.sort_values; apply sort_by_pointwise; intros x y;
    now rewrite ?E1, ?E2, ?E3, ?E4, ?E5, ?E6.
Qed.

(** ** Comparison page *)

(** C4 (defect in the code).  The consolidated-only filter is applied to
    the rows of all selected companies at once: next to a company with
    consolidated figures, a selected company that has parent-only rows
    loses all of them and gets no column, although on its own it is
    shown. *)
Theorem compare_drops_parent_only_company :
  In Compare.sony_parent [Compare.toyota; Compare.sony_parent]
  /\ Compare.compare_page [Compare.toyota; Compare.sony_parent]
                          ["7203"; "6758"]
     = Compare.Shown [Compare.toyota]
  /\ Compare.company_columns [Compare.toyota] = ["Toyota"]
  /\ Compare.compare_page [Compare.toyota; Compare.sony_parent] ["6758"]
     = Compare.Shown [Compare.sony_parent].
Proof.
  split; [right; left; reflexivity|].
  split; [vm_compute; reflexivity|].
  split; vm_compute; reflexivity.
Qed.

(** C5 (defect in the code).  The radar values are the metric values
    divided by the largest absolute value and nothing else: a negative
    metric gives a negative radar value, outside [0,1]. *)
Theorem radar_negative_value_not_clipped :
  exists traces,
    Compare.radar [Compare.toyota; Compare.loss_maker] = Compare.Traces traces
    /\ existsb (fun v => flt v (Fin 0)) (List.concat traces) = true
    /\ forallb Compare.in_unit_interval (List.concat traces) = false.
Proof.
  eexists. split; [vm_compute; reflexivity|].
  split; vm_compute; reflexivity.
Qed.

(** ** Query layer *)

Section QueryLayer.
Import DbHelper.

Lemma count_char_app c s1 s2 :
  count_char c (s1 ++ s2)%string = (count_char c s1 + count_char c s2)%nat.
Proof.
  induction s1 as [|d s1 IH]; simpl; [reflexivity|].
  rewrite IH. lia.
Qed.

Lemma chars_str_mul (n : nat) : chars (str_mul "?" n) = repeat "?" n.
Proof. induction n as [|n IH]; simpl; [reflexivity|]. now rewrite IH. Qed.

Lemma count_placeholders (n : nat) :
  count_char "?" (String.concat "," (repeat "?" n)) = n.
Proof.
  destruct n as [|n]; [reflexivity|].
  induction n as [|n IH]; [reflexivity|].
  change (repeat "?" (S (S n))) with ("?" :: repeat "?" (S n)).
  change (String.concat "," ("?" :: repeat "?" (S n)))
    with ("?" ++ "," ++ String.concat "," (repeat "?" (S n)))%string.
  rewrite !count_char_app, IH. reflexivity.
Qed.

Lemma _query_df_run db sql params t :
  _query_df db sql params t =
  if db_exists db then run db sql params t else (Raised StopException, t).
Proof.
  unfold _query_df, get_connection, bind.
  destruct (db_exists db); reflexivity.
Qed.

Lemma run_snd db sql params t : snd (run db sql params t) = t ++ [(sql, params)].
Proof. unfold run. destruct (execute db sql params); reflexivity. Qed.

(** C7.  For an empty list of security codes the function returns the
    empty frame and sends nothing; for a non-empty list it sends one
    statement whose [IN (...)] clause holds one [?] per code, with the
    codes as its bound parameters, in order. *)
Theorem multi_company_query_parameterized (db : store) (t : list query) :
  get_multi_company_financials db [] t = (Returned pd_DataFrame, t)
  /\ (forall sec_codes, sec_codes <> [] ->
        let placeholders :=
          String.concat "," (repeat "?" (List.length sec_codes)) in
        let sql :=
          (multi_company_sql_head ++ placeholders ++ multi_company_sql_tail)%string in
        snd (get_multi_company_financials db sec_codes t)
        = (if db_exists db then t ++ [(sql, map PText sec_codes)] else t)
        /\ count_char "?" sql = List.length sec_codes
        /\ List.length (map PText sec_codes) = List.length sec_codes).
Proof.
  split; [reflexivity|].
  intros sec_codes Hne. cbv zeta. repeat split.
  - unfold get_multi_company_financials.
    destruct sec_codes as [|c cs]; [congruence|].
    cbv beta iota delta [empty].
    rewrite chars_str_mul, _query_df_run.
    destruct (db_exists db); [apply run_snd|reflexivity].
  - rewrite !count_char_app, count_placeholders.
    change (count_char "?" multi_company_sql_head) with O.
    change (count_char "?" multi_company_sql_tail) with O. lia.
  - apply length_map.
Qed.

(** *** Outcomes of the query functions *)

Lemma yields_result {A : Type} (c : M A) o : yields c o -> result c = o.
Proof. intros H. apply H. Qed.

Lemma yields_ret {A : Type} (a : A) : yields (ret a) (Returned a).
Proof. intros t. reflexivity. Qed.

Lemma yields_bind {A B : Type} (c : M A) (k : A -> M B) a o :
  yields c (Returned a) -> yields (k a) o -> yields (bind c k) o.
Proof.
  intros Hc Hk t. unfold bind. specialize (Hc t).
  destruct (c t) as [[x|e] t']; simpl in Hc; inversion Hc; subst. apply Hk.
Qed.

Lemma yields_try_returned {A : Type} (body handler : M A) a :
  yields body (Returned a) -> yields (try_except body handler) (Returned a).
Proof.
  intros Hb t. unfold try_except. specialize (Hb t).
  destruct (body t) as [[x|e] t']; simpl in Hb; inversion Hb; subst.
  reflexivity.
Qed.

Lemma yields_try_caught {A : Type} (body handler : M A) e o :
  yields body (Raised e) -> is_Exception e = true -> yields handler o ->
  yields (try_except body handler) o.
Proof.
  intros Hb He Hh t. unfold try_except. specialize (Hb t).
  destruct (body t) as [[x|e'] t']; simpl in Hb; inversion Hb; subst.
  rewrite He. apply Hh.
Qed.

Lemma yields_subscript row i :
  yields (subscript row i) (result (subscript row i)).
Proof.
  intros t. unfold subscript, result.
  destruct row as [r|]; [|reflexivity]. destruct (nth_error r i); reflexivity.
Qed.

Lemma yields_run db sql params :
  yields (run db sql params)
         (match execute db sql params with
          | inl msg => Raised (DatabaseError msg)
          | inr df => Returned df
          end).
Proof. intros t. unfold run. destruct (execute db sql params); reflexivity. Qed.

Lemma yields_scalar db sql : yields (scalar db sql) (result (scalar db sql)).
Proof.
  intros t. unfold result, scalar, bind, run.
  destruct (execute db sql []) as [msg|df]; [reflexivity|].
  rewrite (yields_subscript (fetchone df) 0 (t ++ [(sql, [])])).
  symmetry. apply (yields_subscript (fetchone df) 0).
Qed.

Lemma scalar_raises_Exception db sql e :
  result (scalar db sql) = Raised e -> is_Exception e = true.
Proof.
  unfold result, scalar, bind, run, subscript.
  destruct (execute db sql []) as [msg|df]; simpl.
  - intros H. inversion H. reflexivity.
  - destruct (fetchone df) as [[|c r]|]; simpl;
      intros H; inversion H; reflexivity.
Qed.

Lemma yields_count_or_zero db sql :
  yields (try_except (scalar db sql) (ret (Int 0)))
         (Returned (or_zero (result (scalar db sql)))).
Proof.
  destruct (result (scalar db sql)) as [v|e] eqn:E; simpl.
  - apply yields_try_returned. rewrite <- E. apply yields_scalar.
  - eapply yields_try_caught.
    + rewrite <- E. apply yields_scalar.
    + eapply scalar_raises_Exception; eassumption.
    + apply yields_ret.
Qed.

Lemma yields_count_dict rs d :
  yields (count_dict rs d) (result (count_dict rs d)).
Proof.
  revert d. induction rs as [|r rs IH]; intros d t; [reflexivity|].
  unfold result.
  destruct r as [|k [|v r]]; [reflexivity|reflexivity|].
  cbn. rewrite (IH _ t). symmetry. apply (IH _ []).
Qed.

(** C8.  With the database file in place: [get_financial_details]
    returns the empty frame when its statement on [financials] fails;
    and whenever the statements of [get_db_stats] on [documents] succeed,
    it returns statistics in which a count over a missing table or
    column ([parse_status], [dl_status], [key_financials] and then
    [financials], [text_blocks]) is zero, the other entries being what
    the store answered. *)
Theorem optional_features_degrade (db : store) :
  db_exists db = true ->
  (forall sec ic,
      result (get_financial_details db sec ic)
      = Returned (match execute db financial_details_sql [PText sec; PInt ic] with
                  | inr df => df
                  | inl _ => pd_DataFrame
                  end))
  /\ (forall v1 v2 df row d1 d2 cdf counts,
        result (scalar db total_docs_sql) = Returned v1 ->
        result (scalar db total_companies_sql) = Returned v2 ->
        execute db date_range_sql [] = inr df ->
        fetchone df = Some row ->
        nth_error row 0 = Some d1 -> nth_error row 1 = Some d2 ->
        execute db doc_type_counts_sql [] = inr cdf ->
        result (count_dict (rows cdf) []) = Returned counts ->
        exists st,
          result (get_db_stats db) = Returned st
          /\ total_docs st = v1 /\ total_companies st = v2
          /\ date_from st = cell_or d1 (Text "")
          /\ date_to st = cell_or d2 (Text "")
          /\ doc_type_counts st = counts
          /\ parsed_docs st = or_zero (result (scalar db parsed_docs_sql))
          /\ downloaded_docs st = or_zero (result (scalar db downloaded_docs_sql))
          /\ financial_records st
             = match result (scalar db key_financials_sql) with
               | Returned v => v
               | Raised _ => or_zero (result (scalar db financials_sql))
               end
          /\ text_blocks st = or_zero (result (scalar db text_blocks_sql))).
Proof.
  intros Hdb. split.
  - intros sec ic. unfold result, get_financial_details, try_except.
    rewrite _query_df_run, Hdb. unfold run.
    destruct (execute db financial_details_sql [PText sec; PInt ic]);
      reflexivity.
  - intros v1 v2 df row d1 d2 cdf counts H1 H2 H3 H4 H5 H6 H7 H8.
    exists (mkStats v1 v2
              (or_zero (result (scalar db parsed_docs_sql)))
              (or_zero (result (scalar db downloaded_docs_sql)))
              (match result (scalar db key_financials_sql) with
               | Returned v => v
               | Raised _ => or_zero (result (scalar db financials_sql))
               end)
              (or_zero (result (scalar db text_blocks_sql)))
              (cell_or d1 (Text "")) (cell_or d2 (Text "")) counts).
    split; [|repeat split].
    apply yields_result. unfold get_db_stats.
    eapply yields_bind.
    { intros t. unfold get_connection. rewrite Hdb. reflexivity. }
    eapply yields_bind; [rewrite <- H1; apply yields_scalar|].
    eapply yields_bind; [rewrite <- H2; apply yields_scalar|].
    eapply yields_bind; [apply yields_count_or_zero|].
    eapply yields_bind; [apply yields_count_or_zero|].
    eapply (yields_bind _ _
              (match result (scalar db key_financials_sql) with
               | Returned v => v
               | Raised _ => or_zero (result (scalar db financials_sql))
               end)).
    { destruct (result (scalar db key_financials_sql)) as [v|e] eqn:E.
      - apply yields_try_returned. rewrite <- E. apply yields_scalar.
      - eapply yields_try_caught.
        + rewrite <- E. apply yields_scalar.
        + eapply scalar_raises_Exception; eassumption.
        + apply yields_count_or_zero. }
    eapply yields_bind; [apply yields_count_or_zero|].
    eapply yields_bind.
    { pose proof (yields_run db date_range_sql []) as Hr.
      rewrite H3 in Hr. exact Hr. }
    cbv zeta. rewrite H4.
    eapply yields_bind.
    { intros t. unfold subscript. rewrite H5. reflexivity. }
    eapply yields_bind.
    { intros t. unfold subscript. rewrite H6. reflexivity. }
    eapply yields_bind.
    { pose proof (yields_run db doc_type_counts_sql []) as Hr.
      rewrite H7 in Hr. exact Hr. }
    eapply yields_bind; [rewrite <- H8; apply yields_count_dict|].
    apply yields_ret.
Qed.

Lemma sent__query_df db sql params :
  sent (_query_df db sql params) = if db_exists db then [(sql, params)] else [].
Proof.
  unfold sent. rewrite _query_df_run.
  destruct (db_exists db); [apply run_snd|reflexivity].
Qed.

(** C9.  The SQL text of a text search depends only on which filters are
    given (neither [None] nor empty), not on their values: two searches
    with the same filters given send the same text, and the values (the
    keyword between two [%]) travel as bound parameters, followed by the
    limit.  A company search sends one fixed text whatever the keyword,
    which travels twice as a bound parameter, or sends nothing when the
    stripped keyword is empty. *)
Theorem filter_values_stay_out_of_sql :
  (forall sc1 sl1 kw1 pe1 l1 sc2 sl2 kw2 pe2 l2,
      given sc1 = given sc2 -> given sl1 = given sl2 ->
      given kw1 = given kw2 -> given pe1 = given pe2 ->
      fst (search_text_blocks_query sc1 sl1 kw1 pe1 l1)
      = fst (search_text_blocks_query sc2 sl2 kw2 pe2 l2))
  /\ (forall sc sl kw pe l,
        snd (search_text_blocks_query sc sl kw pe l)
        = map PText (bound_values sc sl kw pe) ++ [PInt l])
  /\ (forall db sc sl kw pe l,
        sent (search_text_blocks db sc sl kw pe l)
        = if db_exists db then [search_text_blocks_query sc sl kw pe l]
          else [])
  /\ (forall strip db kw,
        sent (search_companies strip db kw)
        = if (strip kw =? "") || negb (db_exists db) then []
          else [(search_companies_sql,
                 [PText ("%" ++ strip kw ++ "%")%string;
                  PText ("%" ++ strip kw ++ "%")%string])])
  /\ (forall strip db kw1 kw2,
        strip kw1 <> "" -> strip kw2 <> "" ->
        map fst (sent (search_companies strip db kw1))
        = map fst (sent (search_companies strip db kw2))).
Proof.
  assert (Hsc : forall strip db kw,
             sent (search_companies strip db kw)
             = if (strip kw =? "") || negb (db_exists db) then []
               else [(search_companies_sql,
                      [PText ("%" ++ strip kw ++ "%")%string;
                       PText ("%" ++ strip kw ++ "%")%string])]).
  { intros strip db kw. unfold search_companies.
    destruct (strip kw =? "") eqn:E; [reflexivity|].
    rewrite sent__query_df. destruct (db_exists db); reflexivity. }
  repeat split.
  - intros sc1 sl1 kw1 pe1 l1 sc2 sl2 kw2 pe2 l2 H1 H2 H3 H4.
    unfold search_text_blocks_query, build_conditions.
    rewrite H1, H2, H3, H4.
    destruct (given sc2), (given sl2), (given kw2), (given pe2); reflexivity.
  - intros sc sl kw pe l.
    unfold search_text_blocks_query, build_conditions, bound_values.
    destruct (given sc), (given sl), (given kw), (given pe); reflexivity.
  - intros db sc sl kw pe l. unfold search_text_blocks.
    destruct (search_text_blocks_query sc sl kw pe l) as [sql params].
    apply sent__query_df.
  - exact Hsc.
  - intros strip db kw1 kw2 H1 H2. rewrite !Hsc.
    apply String.eqb_neq in H1, H2. rewrite H1, H2.
    destruct (db_exists db); reflexivity.
Qed.

Lemma optional_features_degrade_witness :
  db_exists minimal_db = true
  /\ result (get_financial_details minimal_db "7203" 1) = Returned pd_DataFrame
  /\ exists st,
       result (get_db_stats minimal_db) = Returned st
       /\ total_docs st = Int 3
       /\ parsed_docs st = Int 0
       /\ financial_records st = Int 0
       /\ text_blocks st = Int 0.
Proof.
  destruct (optional_features_degrade minimal_db eq_refl) as [Hfd Hst].
  split; [reflexivity|]. split; [exact (Hfd "7203" 1%Z)|].
  destruct (Hst (Int 3) (Int 2)
                (mkDataFrame ["min_date"; "max_date"]
                   [[Text "2024-04-01"; Text "2024-06-28"]])
                [Text "2024-04-01"; Text "2024-06-28"]
                (Text "2024-04-01") (Text "2024-06-28")
                (mkDataFrame ["doc_type_code"; "cnt"]
                   [[Text "120"; Int 2]; [Text "140"; Int 1]])
                [(Text "120", Int 2); (Text "140", Int 1)]
                eq_refl eq_refl eq_refl eq_refl eq_refl eq_refl eq_refl eq_refl)
    as (st & Hres & Htd & _ & _ & _ & _ & Hpd & _ & Hfr & Htb).
  exists st. repeat split; assumption.
Defined.

End QueryLayer.

(** ** Byte-wise string order *)

Lemma leb_iff (s1 s2 : string) :
  String.leb s1 s2 = true <-> s1 = s2 \/ String_as_OT.lt s1 s2.
Proof.
  unfold String.leb.
  destruct (String.compare s1 s2) eqn:E.
  - apply String_as_OT.cmp_eq in E. split; auto.
  - apply String_as_OT.cmp_lt in E. split; auto.
  - split; [discriminate|]. intros [H|H].
    + apply String_as_OT.cmp_eq in H. unfold String_as_OT.cmp in H. congruence.
    + apply String_as_OT.cmp_lt in H. unfold String_as_OT.cmp in H. congruence.
Qed.

Lemma leb_refl (s : string) : String.leb s s = true.
Proof. apply leb_iff. now left. Qed.

Lemma leb_trans (s1 s2 s3 : string) :
  String.leb s1 s2 = true -> String.leb s2 s3 = true -> String.leb s1 s3 = true.
Proof.
  rewrite !leb_iff. intros [->|H1] [->|H2]; auto.
  right. eapply String_as_OT.lt_trans; eauto.
Qed.


(** ** More on lists *)

Lemma filter_perm {A : Type} (f : A -> bool) (l l' : list A) :
  Permutation l l' -> Permutation (filter f l) (filter f l').
Proof.
  induction 1 as [|x l l' _ IH|x y l|l l' l'' _ IH1 _ IH2]; simpl.
  - constructor.
  - destruct (f x); [now constructor|exact IH].
  - destruct (f x), (f y); try reflexivity. apply perm_swap.
  - now transitivity (filter f l').
Qed.

Lemma flat_map_filter {A : Type} (p : A -> bool) (f : A -> list A) (l : list A) :
  (forall x, In x l -> f x = if p x then [x] else []) ->
  flat_map f l = filter p l.
Proof.
  induction l as [|x l IH]; intros H; simpl; [reflexivity|].
  rewrite (H x (or_introl eq_refl)), IH.
  - destruct (p x); reflexivity.
  - intros y Hy. apply H. now right.
Qed.

Lemma flat_map_of_map {A B C : Type} (g : A -> B) (f : B -> list C) (l : list A) :
  flat_map f (map g l) = flat_map (fun x => f (g x)) l.
Proof. induction l as [|x l IH]; simpl; [reflexivity|]. now rewrite IH. Qed.

Lemma existsb_eqb_In (k : string) (l : list string) :
  existsb (String.eqb k) l = true <-> In k l.
Proof.
  rewrite existsb_exists. split.
  - intros (x & Hx & E). apply String.eqb_eq in E. now subst.
  - intros H. exists k. split; [exact H|apply String.eqb_refl].
Qed.

(** Over a duplicate-free list of keys, a join on the key finds at most
    one partner. *)
Lemma flat_map_one_key {A : Type} (k : string) (g : string -> bool) (r : A)
      (codes : list string) :
  NoDup codes ->
  flat_map (fun c => if (k =? c) && g c then [r] else []) codes
  = if existsb (String.eqb k) codes && g k then [r] else [].
Proof.
  induction 1 as [|c codes Hc _ IH]; simpl; [reflexivity|].
  rewrite IH. destruct (k =? c) eqn:E; simpl; [|reflexivity].
  apply String.eqb_eq in E. subst c.
  assert (existsb (String.eqb k) codes = false) as ->.
  { apply not_true_is_false. now rewrite existsb_eqb_In. }
  simpl. destruct (g k); reflexivity.
Qed.

(** With unique keys, the rows of one key are at most one. *)
Lemma filter_one_key {A K : Type} (key : A -> K) (p : A -> bool) (k : K)
      (l : list A) :
  NoDup (map key l) ->
  (forall x, In x l -> p x = true -> key x = k) ->
  (List.length (filter p l) <= 1)%nat.
Proof.
  induction l as [|x l IH]; simpl; intros Hnd Hk; [lia|].
  inversion Hnd as [|? ? Hx Hnd']; subst.
  destruct (p x) eqn:Px.
  - assert (filter p l = []) as ->; [|simpl; lia].
    apply filter_none. intros y Hy. apply not_true_is_false. intros Py.
    apply Hx. rewrite (Hk x (or_introl eq_refl) Px).
    rewrite <- (Hk y (or_intror Hy) Py). now apply in_map.
  - apply IH; [exact Hnd'|]. intros y Hy. apply Hk. now right.
Qed.

(** ** Latest consolidated snapshot *)

Section ScreeningData.
Import DbHelper.

Lemma str_max_ge_l a b : String.leb a (str_max a b) = true.
Proof.
  unfold str_max. destruct (String.leb a b) eqn:E; [exact E|apply leb_refl].
Qed.

Lemma str_max_ge_r a b : String.leb b (str_max a b) = true.
Proof.
  unfold str_max. destruct (String.leb a b) eqn:E; [apply leb_refl|].
  destruct (String.leb_total a b) as [H|H]; congruence.
Qed.

Lemma sql_max_spec (l : list string) (m : string) :
  sql_max l = Some m ->
  In m l /\ forall x, In x l -> String.leb x m = true.
Proof.
  revert m. induction l as [|y l IH]; simpl; intros m; [discriminate|].
  destruct (sql_max l) as [m'|] eqn:E.
  - intros H. inversion H; subst. destruct (IH m' eq_refl) as [Hin Hle].
    split.
    + unfold str_max. destruct (String.leb y m'); auto.
    + intros x [->|Hx]; [apply str_max_ge_l|].
      eapply leb_trans; [apply Hle, Hx|apply str_max_ge_r].
  - intros H. inversion H; subst. destruct l; [|simpl in E].
    + split; [now left|]. intros x [->|[]]. apply leb_refl.
    + destruct (sql_max l); discriminate.
Qed.

Lemma sql_max_some (l : list string) : l <> [] -> exists m, sql_max l = Some m.
Proof.
  destruct l as [|x l]; [congruence|]. intros _. simpl.
  destruct (sql_max l); eauto.
Qed.

(** The join of the view with [latest] keeps exactly the latest
    consolidated rows, in the order of the view. *)
Lemma join_latest (v : list KeyFinancial) :
  flat_map (fun r => flat_map (fun l => if joins r l then [r] else [])
                              (latest v)) v
  = filter (is_latest v) v.
Proof.
  apply flat_map_filter. intros r Hr. unfold latest.
  rewrite flat_map_of_map.
  rewrite (flat_map_ext _
             (fun c => if (sec_code r =? c)
                          && (match max_period v c with
                              | Some m => period_end r =? m
                              | None => false
                              end && consolidated r)
                       then [r] else [])).
  2:{ intros c. unfold joins. simpl. now rewrite andb_assoc. }
  rewrite (flat_map_one_key (sec_code r)
             (fun c => match max_period v c with
                       | Some m => period_end r =? m
                       | None => false
                       end && consolidated r)).
  2:{ apply NoDup_nodup. }
  unfold is_latest. destruct (consolidated r) eqn:C.
  - assert (existsb (String.eqb (sec_code r))
              (nodup string_dec (map sec_code (filter consolidated v))) = true)
      as ->.
    { apply existsb_eqb_In, nodup_In, in_map, filter_In. auto. }
    simpl. now rewrite andb_true_r.
  - now rewrite andb_false_r, andb_false_r.
Qed.

Lemma screening_rows_perm (v : list KeyFinancial) :
  Permutation (get_screening_data_rows v) (filter (is_latest v) v).
Proof.
  unfold get_screening_data_rows. rewrite join_latest. apply sort_by_perm.
Qed.

Lemma consolidated_iff r : consolidated r = true <-> is_consolidated r = 1%Z.
Proof. unfold consolidated. apply Z.eqb_eq. Qed.

Lemma is_latest_spec (v : list KeyFinancial) (r : KeyFinancial) :
  is_latest v r = true ->
  is_consolidated r = 1%Z
  /\ max_period v (sec_code r) = Some (period_end r)
  /\ forall r', In r' v -> sec_code r' = sec_code r -> is_consolidated r' = 1%Z ->
                String.leb (period_end r') (period_end r) = true.
Proof.
  unfold is_latest. intros H. apply andb_true_iff in H. destruct H as [C H].
  destruct (max_period v (sec_code r)) as [m|] eqn:E; [|discriminate].
  apply String.eqb_eq in H. subst m.
  split; [now apply consolidated_iff|]. split; [reflexivity|].
  intros r' Hin Hc Hcons. apply (proj2 (sql_max_spec _ _ E)).
  apply in_map, filter_In. split.
  - apply filter_In. split; [exact Hin|now apply consolidated_iff].
  - rewrite Hc. apply String.eqb_refl.
Qed.

(** C2.  When no two rows of the view share ([sec_code], [period_end],
    [is_consolidated]), the screening query returns, for each company
    with a consolidated row, exactly one row, the consolidated row of
    that company with the greatest [period_end]; and every row it
    returns is such a row. *)
Theorem latest_consolidated_snapshot (v : list KeyFinancial) :
  key_unique v ->
  (forall c,
      (exists r0, In r0 v /\ sec_code r0 = c /\ is_consolidated r0 = 1%Z) ->
      exists r,
        filter (fun x => sec_code x =? c) (get_screening_data_rows v) = [r]
        /\ In r v /\ sec_code r = c /\ is_consolidated r = 1%Z
        /\ forall r', In r' v -> sec_code r' = c -> is_consolidated r' = 1%Z ->
                      String.leb (period_end r') (period_end r) = true)
  /\ (forall r,
        In r (get_screening_data_rows v) ->
        In r v /\ is_consolidated r = 1%Z
        /\ forall r', In r' v -> sec_code r' = sec_code r ->
                      is_consolidated r' = 1%Z ->
                      String.leb (period_end r') (period_end r) = true).
Proof.
  intros Hkey. split.
  - intros c (r0 & Hin0 & Hc0 & Hcons0).
    assert (Hgroup : In (period_end r0)
              (map period_end
                   (filter (fun r => sec_code r =? c) (filter consolidated v)))).
    { apply in_map, filter_In. split.
      - apply filter_In. split; [exact Hin0|now apply consolidated_iff].
      - rewrite Hc0. apply String.eqb_refl. }
    destruct (sql_max_some
                (map period_end
                     (filter (fun r => sec_code r =? c) (filter consolidated v))))
      as [m Hm].
    { intros E. rewrite E in Hgroup. exact Hgroup. }
    pose proof (proj1 (sql_max_spec _ _ Hm)) as Hmin.
    apply in_map_iff in Hmin. destruct Hmin as (r1 & Hp1 & Hin1).
    apply filter_In in Hin1. destruct Hin1 as [Hin1 Hc1].
    apply filter_In in Hin1. destruct Hin1 as [Hin1 Hcons1].
    apply String.eqb_eq in Hc1.
    assert (Hl1 : is_latest v r1 = true).
    { unfold is_latest, max_period. rewrite Hcons1, Hc1, Hm, Hp1.
      apply String.eqb_refl. }
    pose proof (filter_perm (fun x => sec_code x =? c) _ _
                  (screening_rows_perm v)) as P.
    rewrite filter_andb in P.
    set (p := fun x => is_latest v x && (sec_code x =? c)) in P.
    assert (Hp1' : In r1 (filter p v)).
    { apply filter_In. split; [exact Hin1|]. unfold p.
      rewrite Hl1, Hc1. apply String.eqb_refl. }
    assert (Hlen : (List.length (filter p v) <= 1)%nat).
    { apply (filter_one_key key_of p (c, m, 1%Z)); [exact Hkey|].
      intros x _ Hx. unfold p in Hx. apply andb_true_iff in Hx.
      destruct Hx as [Hx Hcx]. apply String.eqb_eq in Hcx.
      destruct (is_latest_spec v x Hx) as (Hx1 & Hx2 & _).
      unfold key_of. rewrite Hx1, Hcx. f_equal. f_equal.
      unfold max_period in Hx2. rewrite Hcx, Hm in Hx2. congruence. }
    assert (Hone : filter p v = [r1]).
    { destruct (filter p v) as [|a [|b rest]]; simpl in *.
      - contradiction.
      - destruct Hp1' as [->|[]]. reflexivity.
      - lia. }
    rewrite Hone in P. symmetry in P. apply Permutation_length_1_inv in P.
    exists r1. split; [exact P|]. split; [exact Hin1|]. split; [exact Hc1|].
    destruct (is_latest_spec v r1 Hl1) as (H1 & _ & H3).
    split; [exact H1|]. intros r' Hr' Hc' Hcons'. apply H3; congruence.
  - intros r Hr.
    apply (Permutation_in _ (screening_rows_perm v)) in Hr.
    apply filter_In in Hr. destruct Hr as [Hin Hl].
    destruct (is_latest_spec v r Hl) as (H1 & _ & H3). auto.
Qed.
End ScreeningData.

Lemma latest_consolidated_snapshot_witness :
  DbHelper.key_unique Compare.sample_view
  /\ exists r,
       filter (fun x => sec_code x =? "7203")
              (DbHelper.get_screening_data_rows Compare.sample_view) = [r]
       /\ In r Compare.sample_view /\ sec_code r = "7203"
       /\ is_consolidated r = 1%Z
       /\ forall r', In r' Compare.sample_view -> sec_code r' = "7203" ->
                     is_consolidated r' = 1%Z ->
                     String.leb (period_end r') (period_end r) = true.
Proof.
  assert (H : DbHelper.key_unique Compare.sample_view).
  { unfold DbHelper.key_unique. simpl.
    repeat (constructor; [simpl; intuition discriminate|]). constructor. }
  split; [exact H|].
  apply (proj1 (latest_consolidated_snapshot Compare.sample_view H) "7203").
  exists Compare.toyota. split; [simpl; auto|]. split; reflexivity.
Defined.

(** ** Text search *)

Section TextSearch.
Import DbHelper.






(** *** Characters of a string *)


















Lemma sql_limit_length {A : Type} (n : Z) (l : list A) :
  List.length (sql_limit n l)
  = if (n <? 0)%Z then List.length l else Nat.min (Z.to_nat n) (List.length l).
Proof. unfold sql_limit. destruct (n <? 0)%Z; [reflexivity|apply length_firstn]. Qed.


Lemma StronglySorted_weaken {A : Type} (R S : A -> A -> Prop) (l : list A) :
  (forall a b, R a b -> S a b) -> StronglySorted R l -> StronglySorted S l.
Proof.
  intros HRS H. induction H as [|x l Hl IH Hx]; constructor; [exact IH|].
  eapply Forall_impl; [|exact Hx]. intros y. apply HRS.
Qed.

Lemma rows_as_filter table sc sl kw pe limit :
  search_text_blocks_rows table sc sl kw pe limit
  = sql_limit limit (sort_by text_order (filter (matches sc sl kw pe) table)).
Proof.
  unfold search_text_blocks_rows, build_conditions, matches.
  destruct (given sc), (given sl), (given kw), (given pe);
    cbv beta iota zeta; f_equal; f_equal; apply filter_ext; intros r;
    unfold selected; cbn -[like String.eqb];
    destruct (tb_section_label r), (tb_text_content r); cbn -[like String.eqb];
    repeat match goal with
           | |- context [String.eqb ?a ?b] => destruct (String.eqb a b)
           | |- context [like ?a ?b] => destruct (like a b)
           end; reflexivity.
Qed.





End TextSearch.

(* ================================================================= *)
(** * Further properties *)

(** ** Screening page *)

Section ScreeningMore.
Import Screening.

Lemma filter_length_le {A : Type} (f g : A -> bool) (l : list A) :
  (forall x, In x l -> f x = true -> g x = true) ->
  (List.length (filter f l) <= List.length (filter g l))%nat.
Proof.
  induction l as [|x l IH]; simpl; intros H; [lia|].
  assert (IH' := IH (fun y Hy => H y (or_intror Hy))).
  destruct (f x) eqn:F.
  - rewrite (H x (or_introl eq_refl) F). simpl. lia.
  - destruct (g x); simpl; lia.
Qed.

(** X1.  The sort option changes the order of the rows shown and
    nothing else: under any two options the page shows the same rows,
    each as often. *)
Theorem sort_option_only_reorders
        (data : list KeyFinancial) (b : bounds) (s1 s2 : sort_option) :
  Permutation (output (screening_page data b s1))
              (output (screening_page data b s2)).
Proof.
  rewrite (output_perm data b s1). symmetry. apply output_perm.
Qed.

(** X2.  Bounds only take rows away: whatever the bounds, every row
    shown is also shown with all twelve fields empty, and the rows are
    no more. *)
Theorem bounds_only_remove_rows
        (data : list KeyFinancial) (b : bounds) (s : sort_option) :
  incl (output (screening_page data b s))
       (output (screening_page data no_bounds s))
  /\ (List.length (output (screening_page data b s))
      <= List.length (output (screening_page data no_bounds s)))%nat.
Proof.
  split.
  - intros r Hr. apply In_output in Hr. apply In_output.
    destruct Hr as [Hin Hk]. split; [exact Hin|].
    unfold keeps in *. apply andb_true_iff in Hk.
    now rewrite (proj1 Hk), within_no_bounds.
  - rewrite (Permutation_length (output_perm data b s)).
    rewrite (Permutation_length (output_perm data no_bounds s)).
    apply filter_length_le. intros r _ Hk.
    unfold keeps in *. apply andb_true_iff in Hk.
    now rewrite (proj1 Hk), within_no_bounds.
Qed.

Lemma between_bounds (lo hi : Q) (v : f64) :
  fge v (Fin lo) = true -> fle v (Fin hi) = true ->
  exists q, v = Fin q /\ lo <= q /\ q <= hi.
Proof.
  unfold fge. destruct v as [|[|]|q]; simpl; try discriminate.
  rewrite !Qle_bool_iff. eauto.
Qed.

Lemma shown_row_between data b s m lo hi r :
  lower b m = Some lo -> upper b m = Some hi ->
  In r (output (screening_page data b s)) ->
  exists q, value m r = Fin q /\ lo <= q /\ q <= hi.
Proof.
  intros Hlo Hhi Hr. apply In_output in Hr. destruct Hr as [_ Hk].
  unfold keeps in Hk. apply andb_true_iff in Hk. destruct Hk as [_ Hw].
  destruct (proj1 (within_iff b r) Hw m) as [H1 H2].
  rewrite Hlo in H1. rewrite Hhi in H2. now apply between_bounds.
Qed.

(** X3.  A metric whose upper bound is below its lower bound leaves no
    row: the page shows an empty result. *)
Theorem crossing_bounds_show_nothing
        (data : list KeyFinancial) (b : bounds) (s : sort_option)
        (m : metric) (lo hi : Q) :
  lower b m = Some lo -> upper b m = Some hi -> hi < lo ->
  output (screening_page data b s) = [].
Proof.
  intros Hlo Hhi Hlt.
  destruct (output (screening_page data b s)) as [|r rest] eqn:E;
    [reflexivity|].
  destruct (shown_row_between data b s m lo hi r Hlo Hhi) as (q & _ & H1 & H2).
  - rewrite E. now left.
  - lra.
Qed.

(** X4.  Equal lower and upper bounds on a metric select by the exact
    value of the metric, as the filter compares it (for the four yen
    metrics the unrounded oku-yen value, not the rounded one shown). *)
Theorem point_bounds_select_exact_value
        (data : list KeyFinancial) (b : bounds) (s : sort_option)
        (m : metric) (x : Q) (r : KeyFinancial) :
  lower b m = Some x -> upper b m = Some x ->
  In r (output (screening_page data b s)) ->
  exists q, value m r = Fin q /\ q == x.
Proof.
  intros Hlo Hhi Hr.
  destruct (shown_row_between data b s m x x r Hlo Hhi Hr) as (q & Hv & H1 & H2).
  exists q. split; [exact Hv|]. lra.
Qed.
End ScreeningMore.

Lemma crossing_bounds_show_nothing_witness :
  100 < 500
  /\ Screening.output
       (Screening.screening_page [Screening.no_op_income]
          Samples.crossing_sales Screening.BySales) = [].
Proof.
  split; [reflexivity|].
  apply (crossing_bounds_show_nothing [Screening.no_op_income]
           Samples.crossing_sales Screening.BySales Screening.Sales 500 100);
    reflexivity.
Defined.

Lemma point_bounds_select_exact_value_witness :
  In Screening.no_op_income
     (Screening.output
        (Screening.screening_page [Screening.no_op_income]
           Samples.sales_exactly_260 Screening.BySales))
  /\ exists q,
       Screening.value Screening.Sales Screening.no_op_income = Fin q
       /\ q == 260.
Proof.
  assert (H : In Screening.no_op_income
                (Screening.output
                   (Screening.screening_page [Screening.no_op_income]
                      Samples.sales_exactly_260 Screening.BySales))).
  { vm_compute. left. reflexivity. }
  split; [exact H|].
  exact (point_bounds_select_exact_value [Screening.no_op_income]
           Samples.sales_exactly_260 Screening.BySales Screening.Sales 260
           Screening.no_op_income eq_refl eq_refl H).
Defined.

(** ** get_db_stats: what propagates and what is sent *)

Section DbStatsMore.
Import DbHelper.

Lemma raises_bind_left {A B : Type} (c : M A) (k : A -> M B) :
  raises c -> raises (bind c k).
Proof.
  intros (e & Hy & He). exists e. split; [|exact He].
  intros t. unfold bind. specialize (Hy t).
  destruct (c t) as [[a|e'] t']; simpl in Hy; inversion Hy; subst.
  reflexivity.
Qed.

Lemma raises_bind_either {A B : Type} (c : M A) (k : A -> M B) :
  yields c (result c) ->
  (forall e, result c = Raised e -> is_Exception e = true) ->
  (forall a, result c = Returned a -> raises (k a)) ->
  raises (bind c k).
Proof.
  intros Hy He Hk. destruct (result c) as [a|e] eqn:E.
  - destruct (Hk a eq_refl) as (e & Hy' & He'). exists e. split; [|exact He'].
    eapply yields_bind; eassumption.
  - apply raises_bind_left. exists e. split; [exact Hy|]. now apply He.
Qed.

Lemma raises_bind_returned {A B : Type} (c : M A) (k : A -> M B) a :
  yields c (Returned a) -> raises (k a) -> raises (bind c k).
Proof.
  intros Hy (e & Hy' & He). exists e. split; [|exact He].
  eapply yields_bind; eassumption.
Qed.

Lemma raises_run db sql msg :
  execute db sql [] = inl msg -> raises (run db sql []).
Proof.
  intros H. exists (DatabaseError msg). split; [|reflexivity].
  pose proof (yields_run db sql []) as Hy. now rewrite H in Hy.
Qed.

Lemma raises_scalar db sql msg :
  execute db sql [] = inl msg -> raises (scalar db sql).
Proof. intros H. apply raises_bind_left. eapply raises_run; eassumption. Qed.

Lemma subscript_raises_Exception row i e :
  result (subscript row i) = Raised e -> is_Exception e = true.
Proof.
  unfold result, subscript. destruct row as [r|]; [destruct (nth_error r i)|];
    simpl; intros H; inversion H; reflexivity.
Qed.

Lemma yields_optional_counts db :
  yields (try_except (scalar db key_financials_sql)
            (try_except (scalar db financials_sql) (ret (Int 0))))
         (Returned (match result (scalar db key_financials_sql) with
                    | Returned v => v
                    | Raised _ => or_zero (result (scalar db financials_sql))
                    end)).
Proof.
  destruct (result (scalar db key_financials_sql)) as [v|e] eqn:E.
  - apply yields_try_returned. rewrite <- E. apply yields_scalar.
  - eapply yields_try_caught.
    + rewrite <- E. apply yields_scalar.
    + eapply scalar_raises_Exception; eassumption.
    + apply yields_count_or_zero.
Qed.

(** X5.  A failure of one of the four statements that [get_db_stats]
    does not guard (the two counts over [documents], the date range and
    the counts per document type) is not swallowed: with the database
    file in place the function raises an [Exception]. *)
Theorem db_stats_primary_failure_propagates
        (db : store) (sql msg : string) :
  db_exists db = true ->
  In sql [total_docs_sql; total_companies_sql; date_range_sql;
          doc_type_counts_sql] ->
  execute db sql [] = inl msg ->
  exists e, result (get_db_stats db) = Raised e /\ is_Exception e = true.
Proof.
  intros Hdb Hin Hfail.
  assert (R : raises (get_db_stats db)).
  { unfold get_db_stats.
    eapply raises_bind_returned.
    { intros t. unfold get_connection. rewrite Hdb. reflexivity. }
    destruct Hin as [<-|Hin]; [eapply raises_bind_left, raises_scalar; eassumption|].
    apply raises_bind_either;
      [apply yields_scalar|apply scalar_raises_Exception|intros v1 _].
    destruct Hin as [<-|Hin]; [eapply raises_bind_left, raises_scalar; eassumption|].
    apply raises_bind_either;
      [apply yields_scalar|apply scalar_raises_Exception|intros v2 _].
    eapply raises_bind_returned; [apply yields_count_or_zero|].
    eapply raises_bind_returned; [apply yields_count_or_zero|].
    eapply raises_bind_returned; [apply yields_optional_counts|].
    eapply raises_bind_returned; [apply yields_count_or_zero|].
    destruct Hin as [<-|Hin]; [eapply raises_bind_left, raises_run; eassumption|].
    destruct Hin as [<-|[]].
    destruct (execute db date_range_sql []) as [m|df] eqn:Ed.
    { eapply raises_bind_left, raises_run; eassumption. }
    eapply raises_bind_returned.
    { pose proof (yields_run db date_range_sql []) as Hy.
      rewrite Ed in Hy. exact Hy. }
    cbv zeta.
    apply raises_bind_either;
      [apply yields_subscript|apply subscript_raises_Exception|intros d1 _].
    apply raises_bind_either;
      [apply yields_subscript|apply subscript_raises_Exception|intros d2 _].
    eapply raises_bind_left, raises_run; eassumption. }
  destruct R as (e & Hy & He). exists e. split; [apply Hy|exact He].
Qed.

(** *** The statements sent *)

Lemma sends_only_ret {A : Type} (a : A) P : sends_only (ret a) P.
Proof. intros t. exists []. split; [symmetry; apply app_nil_r|constructor]. Qed.

Lemma sends_only_raise {A : Type} e P : sends_only (@raise A e) P.
Proof. intros t. exists []. split; [symmetry; apply app_nil_r|constructor]. Qed.

Lemma sends_only_run db sql params (P : query -> Prop) :
  P (sql, params) -> sends_only (run db sql params) P.
Proof.
  intros H t. exists [(sql, params)]. split; [apply run_snd|].
  constructor; [exact H|constructor].
Qed.

Lemma sends_only_bind {A B : Type} (c : M A) (k : A -> M B) P :
  sends_only c P -> (forall a, sends_only (k a) P) -> sends_only (bind c k) P.
Proof.
  intros Hc Hk t. destruct (Hc t) as (t1 & E1 & F1). unfold bind.
  destruct (c t) as [[a|e] t'] eqn:E; simpl in E1; subst t'.
  - destruct (Hk a (t ++ t1)) as (t2 & E2 & F2). exists (t1 ++ t2).
    split; [now rewrite E2, app_assoc|apply Forall_app; auto].
  - exists t1. auto.
Qed.

Lemma sends_only_try {A : Type} (body handler : M A) o P :
  yields body o -> sends_only body P ->
  ((exists e, o = Raised e) -> sends_only handler P) ->
  sends_only (try_except body handler) P.
Proof.
  intros Hy Hb Hh t. destruct (Hb t) as (t1 & E1 & F1). unfold try_except.
  specialize (Hy t).
  destruct (body t) as [[a|e] t'] eqn:E; simpl in E1, Hy; subst t'.
  - exists t1. auto.
  - destruct (is_Exception e); [|exists t1; auto].
    destruct (Hh (ex_intro _ e (eq_sym Hy)) (t ++ t1)) as (t2 & E2 & F2).
    exists (t1 ++ t2).
    split; [now rewrite E2, app_assoc|apply Forall_app; auto].
Qed.

Lemma sends_only_subscript row i P : sends_only (subscript row i) P.
Proof.
  unfold subscript. destruct row as [r|]; [destruct (nth_error r i)|];
    first [apply sends_only_ret|apply sends_only_raise].
Qed.

Lemma sends_only_scalar db sql (P : query -> Prop) :
  P (sql, []) -> sends_only (scalar db sql) P.
Proof.
  intros H. apply sends_only_bind; [now apply sends_only_run|].
  intros df. apply sends_only_subscript.
Qed.

Lemma sends_only_count_dict rs d P : sends_only (count_dict rs d) P.
Proof.
  revert d. induction rs as [|r rs IH]; intros d; cbn [count_dict];
    [apply sends_only_ret|].
  apply sends_only_bind; [apply sends_only_subscript|intros k].
  apply sends_only_bind; [apply sends_only_subscript|intros v]. apply IH.
Qed.

Lemma sends_only_get_connection db P : sends_only (get_connection db) P.
Proof.
  unfold get_connection.
  destruct (db_exists db); [apply sends_only_ret|apply sends_only_raise].
Qed.

Lemma sends_only_count_or_zero db sql (P : query -> Prop) :
  P (sql, []) -> sends_only (try_except (scalar db sql) (ret (Int 0))) P.
Proof.
  intros H. eapply sends_only_try;
    [apply yields_scalar|now apply sends_only_scalar|].
  intros _. apply sends_only_ret.
Qed.

Lemma get_db_stats_sends db (P : query -> Prop) :
  Forall (fun sql => P (sql, []))
         [total_docs_sql; total_companies_sql; parsed_docs_sql;
          downloaded_docs_sql; key_financials_sql; text_blocks_sql;
          date_range_sql; doc_type_counts_sql] ->
  ((exists e, result (scalar db key_financials_sql) = Raised e) ->
   P (financials_sql, [])) ->
  sends_only (get_db_stats db) P.
Proof.
  intros HP Hfin.
  repeat match goal with
         | H : Forall _ (_ :: _) |- _ => inversion_clear H
         end.
  unfold get_db_stats.
  apply sends_only_bind; [apply sends_only_get_connection|intros _].
  apply sends_only_bind; [now apply sends_only_scalar|intros v1].
  apply sends_only_bind; [now apply sends_only_scalar|intros v2].
  apply sends_only_bind; [now apply sends_only_count_or_zero|intros v3].
  apply sends_only_bind; [now apply sends_only_count_or_zero|intros v4].
  apply sends_only_bind.
  { eapply sends_only_try;
      [apply yields_scalar|now apply sends_only_scalar|].
    intros He. apply sends_only_count_or_zero. now apply Hfin. }
  intros v5.
  apply sends_only_bind; [now apply sends_only_count_or_zero|intros v6].
  apply sends_only_bind; [now apply sends_only_run|intros df]. cbv zeta.
  apply sends_only_bind; [apply sends_only_subscript|intros d1].
  apply sends_only_bind; [apply sends_only_subscript|intros d2].
  apply sends_only_bind; [now apply sends_only_run|intros cdf].
  apply sends_only_bind; [apply sends_only_count_dict|intros counts].
  apply sends_only_ret.
Qed.

Lemma sends_only_sent {A : Type} (c : M A) P :
  sends_only c P -> Forall P (sent c).
Proof.
  intros H. destruct (H []) as (t' & E & F). unfold sent. now rewrite E.
Qed.

(** X6.  Every statement [get_db_stats] sends has no parameters, and
    the count over [financials] is asked for only after the count over
    [key_financials] has failed. *)
Theorem db_stats_statements (db : store) :
  Forall (fun q => snd q = []) (sent (get_db_stats db))
  /\ (forall v,
        result (scalar db key_financials_sql) = Returned v ->
        ~ In financials_sql (map fst (sent (get_db_stats db)))).
Proof.
  split.
  - apply sends_only_sent, get_db_stats_sends.
    + repeat constructor.
    + reflexivity.
  - intros v Hv Hin. apply in_map_iff in Hin. destruct Hin as (q & Hq & Hin).
    assert (F : Forall (fun q => fst q <> financials_sql)
                       (sent (get_db_stats db))).
    { apply sends_only_sent, get_db_stats_sends.
      - repeat constructor; simpl; intros E;
          apply String.eqb_eq in E; discriminate E.
      - intros (e & He). congruence. }
    rewrite Forall_forall in F. exact (F q Hin Hq).
Qed.
End DbStatsMore.

Lemma db_stats_primary_failure_propagates_witness :
  DbHelper.db_exists Samples.empty_db = true
  /\ exists e,
       DbHelper.result (DbHelper.get_db_stats Samples.empty_db)
       = DbHelper.Raised e
       /\ DbHelper.is_Exception e = true.
Proof.
  split; [reflexivity|].
  apply (db_stats_primary_failure_propagates Samples.empty_db
           DbHelper.total_docs_sql "no such table: documents" eq_refl);
    [left; reflexivity|reflexivity].
Defined.

(** ** Rows of the company fetches *)

Section CompanyRows.
Import DbHelper.

Lemma multi_company_order_total a b :
  multi_company_order a b = true \/ multi_company_order b a = true.
Proof.
  unfold multi_company_order.
  rewrite (String.compare_antisym (sec_code a) (sec_code b)).
  destruct (String.compare (sec_code b) (sec_code a)); simpl; auto.
  apply String.leb_total.
Qed.

Lemma compare_lt_trans (x y z : string) :
  String.compare x y = Lt -> String.compare y z = Lt -> String.compare x z = Lt.
Proof.
  intros H1 H2. apply String_as_OT.cmp_lt in H1, H2. apply String_as_OT.cmp_lt.
  eapply String_as_OT.lt_trans; eassumption.
Qed.

Lemma compare_refl (x : string) : String.compare x x = Eq.
Proof. now apply String_as_OT.cmp_eq. Qed.

Lemma multi_company_order_trans a b c :
  multi_company_order a b = true -> multi_company_order b c = true ->
  multi_company_order a c = true.
Proof.
  unfold multi_company_order.
  destruct (String.compare (sec_code a) (sec_code b)) eqn:E1;
    try discriminate;
    destruct (String.compare (sec_code b) (sec_code c)) eqn:E2;
    try discriminate.
  - apply String_as_OT.cmp_eq in E1, E2. rewrite E1, E2, compare_refl.
    intros H1 H2. eapply leb_trans; eassumption.
  - apply String_as_OT.cmp_eq in E1. rewrite E1, E2. reflexivity.
  - apply String_as_OT.cmp_eq in E2. rewrite <- E2, E1. reflexivity.
  - rewrite (compare_lt_trans _ _ _ E1 E2). reflexivity.
Qed.

Lemma multi_company_order_iff a b :
  multi_company_order a b = true <-> code_then_period_desc a b.
Proof.
  unfold multi_company_order, code_then_period_desc.
  destruct (String.compare (sec_code a) (sec_code b)) eqn:E.
  - apply String_as_OT.cmp_eq in E. split; [auto|].
    intros [H|[_ H]]; [discriminate|exact H].
  - split; auto.
  - split; [discriminate|]. intros [H|[H _]]; [discriminate|].
    apply String_as_OT.cmp_eq in H. unfold String_as_OT.cmp in H. congruence.
Qed.

Lemma multi_rows_perm v codes :
  Permutation (get_multi_company_financials_rows v codes)
              (CompareNotions.selected_rows v codes).
Proof.
  unfold get_multi_company_financials_rows, CompareNotions.selected_rows.
  destruct codes as [|c codes]; [|apply sort_by_perm].
  simpl. rewrite filter_none; [reflexivity|]. reflexivity.
Qed.

Lemma In_multi_rows v codes r :
  In r (get_multi_company_financials_rows v codes)
  <-> In r v /\ In (sec_code r) codes.
Proof.
  rewrite <- existsb_eqb_In.
  split.
  - intros H. apply (Permutation_in _ (multi_rows_perm v codes)) in H.
    apply filter_In in H. exact H.
  - intros H. apply (Permutation_in _ (Permutation_sym (multi_rows_perm v codes))).
    apply filter_In. exact H.
Qed.

(** X7.  The multi-company fetch returns the rows of the view whose
    [sec_code] is among the given codes, each exactly once however often
    a code is listed, ordered by [sec_code] and then by [period_end]
    descending. *)
Theorem multi_company_rows_spec (v : list KeyFinancial) (codes : list string) :
  let out := get_multi_company_financials_rows v codes in
  Permutation out
    (filter (fun r => existsb (String.eqb (sec_code r)) codes) v)
  /\ (forall r, In r out <-> In r v /\ In (sec_code r) codes)
  /\ StronglySorted code_then_period_desc out.
Proof.
  cbv zeta. split; [apply multi_rows_perm|]. split; [apply In_multi_rows|].
  unfold get_multi_company_financials_rows.
  destruct codes as [|c codes]; [constructor|]. cbv beta iota delta [empty].
  eapply StronglySorted_weaken;
    [|apply (sort_by_sorted multi_company_order multi_company_order_total
               multi_company_order_trans)].
  intros a b. apply multi_company_order_iff.
Qed.

Lemma insert_by_ext {A : Type} (b1 b2 : A -> A -> bool) (x : A) (l : list A) :
  (forall y, In y l -> b1 x y = b2 x y) ->
  insert_by b1 x l = insert_by b2 x l.
Proof.
  induction l as [|y l IH]; intros H; simpl; [reflexivity|].
  rewrite (H y (or_introl eq_refl)), IH; [reflexivity|].
  intros z Hz. apply H. now right.
Qed.

Lemma sort_by_ext {A : Type} (b1 b2 : A -> A -> bool) (l : list A) :
  (forall x y, In x l -> In y l -> b1 x y = b2 x y) ->
  sort_by b1 l = sort_by b2 l.
Proof.
  induction l as [|x l IH]; intros H; simpl; [reflexivity|].
  rewrite IH by (intros; apply H; now right).
  apply insert_by_ext. intros y Hy. apply H; [now left|right].
  apply (Permutation_in _ (sort_by_perm b2 l)). exact Hy.
Qed.

Lemma single_code_rows (v : list KeyFinancial) (code : string) :
  get_multi_company_financials_rows v [code] = get_key_financials_rows v code.
Proof.
  unfold get_multi_company_financials_rows, get_key_financials_rows.
  cbv beta iota delta [empty].
  rewrite (filter_ext _ (fun r => sec_code r =? code))
    by (intros r; simpl; apply orb_false_r).
  apply sort_by_ext. intros x y Hx Hy.
  apply filter_In in Hx, Hy. destruct Hx as [_ Hx]. destruct Hy as [_ Hy].
  apply String.eqb_eq in Hx, Hy. unfold multi_company_order.
  now rewrite Hx, Hy, compare_refl.
Qed.

Lemma key_financials_rows_sorted (v : list KeyFinancial) (code : string) :
  StronglySorted
    (fun a b => String.leb (period_end b) (period_end a) = true)
    (get_key_financials_rows v code).
Proof.
  apply (sort_by_sorted
           (fun a b : KeyFinancial => String.leb (period_end b) (period_end a))).
  - intros a b. apply String.leb_total.
  - intros a b c H1 H2. eapply leb_trans; eassumption.
Qed.

(** X8.  Fetching one company through the multi-company fetch gives the
    rows that [get_key_financials] gives for it, each as often, and both
    results run from the latest [period_end] to the earliest. *)
Theorem single_code_fetch_agrees (v : list KeyFinancial) (code : string) :
  Permutation (get_multi_company_financials_rows v [code])
              (get_key_financials_rows v code)
  /\ StronglySorted
       (fun a b => String.leb (period_end b) (period_end a) = true)
       (get_multi_company_financials_rows v [code])
  /\ StronglySorted
       (fun a b => String.leb (period_end b) (period_end a) = true)
       (get_key_financials_rows v code).
Proof.
  rewrite single_code_rows. split; [reflexivity|].
  split; apply key_financials_rows_sorted.
Qed.
End CompanyRows.

(** ** Comparison page: the latest rows *)

Section CompareMore.
Import Compare.

Lemma by_period_desc_perm l : Permutation (by_period_desc l) l.
Proof. apply sort_by_perm. Qed.

Lemma by_period_desc_head l x rest :
  by_period_desc l = x :: rest ->
  In x l /\ forall y, In y l -> String.leb (period_end y) (period_end x) = true.
Proof.
  intros E.
  pose proof (sort_by_sorted
                (fun a b : KeyFinancial => String.leb (period_end b) (period_end a))
                (fun a b => String.leb_total (period_end b) (period_end a))
                (fun a b c H1 H2 => leb_trans _ _ _ H2 H1) l) as Hs.
  fold (by_period_desc l) in Hs. rewrite E in Hs.
  inversion Hs as [|? ? _ Hf]; subst.
  pose proof (by_period_desc_perm l) as P. rewrite E in P.
  split; [apply (Permutation_in _ P); now left|].
  intros y Hy. apply (Permutation_in _ (Permutation_sym P)) in Hy.
  destruct Hy as [<-|Hy]; [apply leb_refl|].
  rewrite Forall_forall in Hf. now apply Hf.
Qed.

Lemma latest_of_company all_fin code r :
  In r (let company_fin := filter (fun x => sec_code x =? code) all_fin in
        if negb (empty company_fin) then firstn 1 (by_period_desc company_fin)
        else []) ->
  In r all_fin /\ sec_code r = code
  /\ forall r', In r' all_fin -> sec_code r' = code ->
                String.leb (period_end r') (period_end r) = true.
Proof.
  cbv zeta. set (cf := filter (fun x => sec_code x =? code) all_fin).
  destruct (empty cf); simpl; [intros []|].
  destruct (by_period_desc cf) as [|x rest] eqn:E; simpl; [intros []|].
  intros [<-|[]]. destruct (by_period_desc_head cf x rest E) as [Hin Hmax].
  apply filter_In in Hin. destruct Hin as [Hin Hc]. apply String.eqb_eq in Hc.
  repeat split; auto. intros r' Hr' Hc'. apply Hmax. apply filter_In.
  split; [exact Hr'|]. rewrite Hc'. apply String.eqb_refl.
Qed.

Lemma company_has_latest all_fin code :
  (exists r0, In r0 all_fin /\ sec_code r0 = code) ->
  exists r,
    In r (let company_fin := filter (fun x => sec_code x =? code) all_fin in
          if negb (empty company_fin) then firstn 1 (by_period_desc company_fin)
          else []).
Proof.
  intros (r0 & Hin & Hc). cbv zeta.
  set (cf := filter (fun x => sec_code x =? code) all_fin).
  assert (H0 : In r0 cf).
  { apply filter_In. split; [exact Hin|]. rewrite Hc. apply String.eqb_refl. }
  destruct cf as [|c0 cf'] eqn:Ecf; [contradiction|]. simpl negb. cbv iota.
  destruct (by_period_desc (c0 :: cf')) as [|x rest] eqn:E.
  - pose proof (Permutation_length (by_period_desc_perm (c0 :: cf'))) as L.
    rewrite E in L. discriminate L.
  - exists x. now left.
Qed.

Lemma flat_map_length_le {A B : Type} (f : A -> list B) (l : list A) :
  (forall x, (List.length (f x) <= 1)%nat) ->
  (List.length (flat_map f l) <= List.length l)%nat.
Proof.
  intros H. induction l as [|x l IH]; simpl; [lia|].
  rewrite length_app. specialize (H x). lia.
Qed.

Lemma latest_data_facts (all_fin : list KeyFinancial) (codes : list string) :
  (List.length (latest_data all_fin codes) <= List.length codes)%nat
  /\ (forall r, In r (latest_data all_fin codes) ->
        In r all_fin /\ In (sec_code r) codes
        /\ forall r', In r' all_fin -> sec_code r' = sec_code r ->
                      String.leb (period_end r') (period_end r) = true)
  /\ (forall c, In c codes ->
        (exists r0, In r0 all_fin /\ sec_code r0 = c) ->
        exists r, In r (latest_data all_fin codes) /\ sec_code r = c).
Proof.
  unfold latest_data. split; [|split].
  - apply flat_map_length_le. intros code. cbv zeta.
    destruct (negb _); [apply firstn_le_length|simpl; lia].
  - intros r Hr. apply in_flat_map in Hr. destruct Hr as (code & Hc & Hr).
    destruct (latest_of_company all_fin code r Hr) as (H1 & H2 & H3).
    subst code. auto.
  - intros c Hc Hex. destruct (company_has_latest all_fin c Hex) as [r Hr].
    exists r. split.
    + apply in_flat_map. exists c. split; [exact Hc|exact Hr].
    + apply (latest_of_company all_fin c r Hr).
Qed.

(** X9.  The loop over the selected codes collects at most one row per
    code; each collected row is a row of the frame, belongs to a
    selected code and has the greatest [period_end] among the frame's
    rows of its company; and every selected code that has a row in the
    frame gets one. *)
Theorem latest_data_spec (all_fin : list KeyFinancial) (codes : list string) :
  (List.length (latest_data all_fin codes) <= List.length codes)%nat
  /\ (forall r, In r (latest_data all_fin codes) ->
        In r all_fin /\ In (sec_code r) codes
        /\ forall r', In r' all_fin -> sec_code r' = sec_code r ->
                      String.leb (period_end r') (period_end r) = true)
  /\ (forall c, In c codes ->
        (exists r0, In r0 all_fin /\ sec_code r0 = c) ->
        exists r, In r (latest_data all_fin codes) /\ sec_code r = c).
Proof. apply latest_data_facts. Qed.

Lemma consolidated_only_incl l r : In r (consolidated_only l) -> In r l.
Proof.
  unfold consolidated_only. destruct (existsb _ l); [|auto].
  intros H. apply filter_In in H. tauto.
Qed.

Lemma consolidated_only_nonempty l : l <> [] -> consolidated_only l <> [].
Proof.
  unfold consolidated_only. intros Hl.
  destruct (existsb _ l) eqn:E; [|exact Hl].
  apply existsb_exists in E. destruct E as (x & Hx & Hc).
  intros H. assert (Hin : In x (filter (fun r => (is_consolidated r =? 1)%Z) l))
    by (apply filter_In; auto).
  rewrite H in Hin. exact Hin.
Qed.

Lemma latest_data_of_selected_rows v codes l r0 :
  (forall r, In r l -> In r v /\ In (sec_code r) codes) ->
  In r0 l ->
  exists r, In r (latest_data l codes) /\ sec_code r = sec_code r0.
Proof.
  intros Hl H0. apply (proj2 (proj2 (latest_data_facts l codes))).
  - apply Hl, H0.
  - eauto.
Qed.

(** X10.  Once the page is past its two stop checks, the comparison has
    at least one company: the list of latest rows is not empty, it holds
    at most one row per selected code, and its rows are rows of the view
    that belong to selected codes. *)
Theorem compare_page_shows_a_company (v : list KeyFinancial)
        (codes : list string) :
  match compare_page v codes with
  | Shown l =>
      l <> [] /\ (List.length l <= List.length codes)%nat
      /\ forall r, In r l -> In r v /\ In (sec_code r) codes
  | _ => True
  end.
Proof.
  unfold compare_page. destruct (empty codes); [exact I|].
  set (rows := DbHelper.get_multi_company_financials_rows v codes).
  destruct (empty rows) eqn:E; [exact I|]. cbv zeta.
  apply empty_false_iff in E.
  assert (Hsel : forall r, In r (consolidated_only rows) ->
                           In r v /\ In (sec_code r) codes).
  { intros r Hr. apply consolidated_only_incl in Hr.
    now apply In_multi_rows in Hr. }
  split; [|split].
  - pose proof (consolidated_only_nonempty rows E) as Hne.
    destruct (consolidated_only rows) as [|r0 rest] eqn:Ec; [congruence|].
    destruct (latest_data_of_selected_rows v codes (r0 :: rest) r0 Hsel)
      as (r & Hr & _); [now left|].
    intros H. rewrite H in Hr. exact Hr.
  - apply latest_data_facts.
  - intros r Hr.
    destruct (proj1 (proj2 (latest_data_facts _ _)) r Hr) as (H1 & _).
    now apply Hsel.
Qed.

(** X11.  When the selected companies are alike, none of their rows
    being consolidated or each company with rows having a consolidated
    one, every selected company that has a row in the view is among the
    latest rows shown. *)
Theorem compare_keeps_every_company (v : list KeyFinancial)
        (codes : list string) :
  (forall r, In r v -> In (sec_code r) codes -> is_consolidated r <> 1%Z)
  \/ (forall r, In r v -> In (sec_code r) codes ->
        exists r1, In r1 v /\ sec_code r1 = sec_code r
                   /\ is_consolidated r1 = 1%Z) ->
  forall c, In c codes -> (exists r0, In r0 v /\ sec_code r0 = c) ->
    exists l r, compare_page v codes = Shown l /\ In r l /\ sec_code r = c.
Proof.
  intros Hcase c Hc (r0 & Hin0 & Hc0).
  assert (Ec : empty codes = false) by (destruct codes; [contradiction|reflexivity]).
  pose (rows := DbHelper.get_multi_company_financials_rows v codes).
  assert (Hr0 : In r0 rows) by (apply In_multi_rows; subst c; auto).
  assert (Er : empty rows = false)
    by (destruct rows; [contradiction|reflexivity]).
  assert (Hex : exists r1, In r1 (consolidated_only rows) /\ sec_code r1 = c).
  { unfold consolidated_only.
    destruct (existsb (fun r => (is_consolidated r =? 1)%Z) rows) eqn:E.
    - destruct Hcase as [Hnone|Hall].
      + apply existsb_exists in E. destruct E as (y & Hy & Hcy).
        apply In_multi_rows in Hy. apply Z.eqb_eq in Hcy.
        exfalso. exact (Hnone y (proj1 Hy) (proj2 Hy) Hcy).
      + destruct (Hall r0 Hin0) as (r1 & H1 & H2 & H3); [subst c; exact Hc|].
        exists r1. split; [|congruence]. apply filter_In. split.
        * apply In_multi_rows. split; [exact H1|]. rewrite H2, Hc0. exact Hc.
        * now apply Z.eqb_eq.
    - exists r0. auto. }
  destruct Hex as (r1 & H1 & H2).
  destruct (proj2 (proj2 (latest_data_facts (consolidated_only rows) codes)) c Hc)
    as (r & Hr & Hrc); [exists r1; split; assumption|].
  exists (latest_data (consolidated_only rows) codes), r.
  split; [|split; assumption].
  unfold compare_page. rewrite Ec. fold rows. rewrite Er. reflexivity.
Qed.
End CompareMore.

Lemma compare_keeps_every_company_witness :
  (forall r, In r [Compare.toyota; Samples.honda] ->
             In (sec_code r) ["7267"; "7203"] ->
             exists r1, In r1 [Compare.toyota; Samples.honda]
                        /\ sec_code r1 = sec_code r
                        /\ is_consolidated r1 = 1%Z)
  /\ exists l r,
       Compare.compare_page [Compare.toyota; Samples.honda] ["7267"; "7203"]
       = Compare.Shown l
       /\ In r l /\ sec_code r = "7267".
Proof.
  assert (H : forall r, In r [Compare.toyota; Samples.honda] ->
                        In (sec_code r) ["7267"; "7203"] ->
                        exists r1, In r1 [Compare.toyota; Samples.honda]
                                   /\ sec_code r1 = sec_code r
                                   /\ is_consolidated r1 = 1%Z).
  { intros r [<-|[<-|[]]] _; eexists; (split; [|split; reflexivity]);
      simpl; auto. }
  split; [exact H|].
  apply (compare_keeps_every_company [Compare.toyota; Samples.honda]
           ["7267"; "7203"] (or_intror H) "7267").
  - now left.
  - exists Samples.honda. split; [simpl; auto|reflexivity].
Defined.

(** ** Comparison page: the radar chart *)

Section RadarMore.
Import Compare.

Lemma max_val_some l metric :
  l <> [] -> exists m, max_val l metric = Some m.
Proof.
  destruct l as [|d l]; [congruence|]. intros _. unfold max_val. simpl.
  eexists. reflexivity.
Qed.

Lemma all_some_map {A B : Type} (f : A -> option B) (Q : B -> Prop)
      (l : list A) :
  (forall x, In x l -> exists y, f x = Some y /\ Q y) ->
  exists ys, all_some (map f l) = Some ys
             /\ List.length ys = List.length l /\ Forall Q ys.
Proof.
  induction l as [|x l IH]; intros H; simpl.
  - exists []. repeat split. constructor.
  - destruct (H x (or_introl eq_refl)) as (y & Ey & Qy). rewrite Ey.
    destruct IH as (ys & Eys & Len & F); [intros z Hz; apply H; now right|].
    rewrite Eys. exists (y :: ys). simpl. repeat split; auto.
Qed.

Lemma radar_values_shape l d :
  l <> [] ->
  exists tr, radar_values l d = Some tr
             /\ List.length tr = 7%nat /\ nth_error tr 6 = nth_error tr 0.
Proof.
  intros Hl. unfold radar_values, radar_metrics. simpl map.
  destruct (max_val_some l sales Hl) as [m1 ->].
  destruct (max_val_some l operating_income Hl) as [m2 ->].
  destruct (max_val_some l net_income Hl) as [m3 ->].
  destruct (max_val_some l total_assets Hl) as [m4 ->].
  destruct (max_val_some l net_assets Hl) as [m5 ->].
  destruct (max_val_some l operating_cf Hl) as [m6 ->].
  simpl. eexists. repeat split.
Qed.

(** X12.  With fewer than two latest rows the page asks for more
    companies; with two or more it draws one trace per row, each of
    seven values, the six metrics and the first one again, and [max]
    never meets an empty list. *)
Theorem radar_shape (latest_data : list KeyFinancial) :
  ((List.length latest_data < 2)%nat -> radar latest_data = NeedTwoCompanies)
  /\ ((2 <= List.length latest_data)%nat ->
      exists traces,
        radar latest_data = Traces traces
        /\ List.length traces = List.length latest_data
        /\ Forall (fun tr => List.length tr = 7%nat
                             /\ nth_error tr 6 = nth_error tr 0) traces).
Proof.
  unfold radar. split.
  - intros H.
    assert ((2 <=? List.length latest_data)%nat = false) as ->
      by (apply Nat.leb_gt; lia).
    now rewrite andb_false_r.
  - intros H. destruct latest_data as [|d l] eqn:El; [simpl in H; lia|].
    rewrite <- El in *. assert (Hne : latest_data <> []) by (subst; discriminate).
    destruct (all_some_map (radar_values latest_data)
                (fun tr => List.length tr = 7%nat
                           /\ nth_error tr 6 = nth_error tr 0) latest_data)
      as (traces & E & Len & F).
    { intros x _. apply radar_values_shape, Hne. }
    exists traces. rewrite E.
    assert (empty latest_data = false) as -> by (subst; reflexivity).
    apply Nat.leb_le in H. rewrite H. auto.
Qed.

(** *** Values of non-negative metrics *)

Lemma fold_max_fin (xs : list Q) (c : Q) :
  exists M,
    fold_left (fun cur item => if fgt item cur then item else cur)
              (map Fin xs) (Fin c) = Fin M
    /\ c <= M /\ forall x, In x xs -> x <= M.
Proof.
  revert c. induction xs as [|x xs IH]; intros c; simpl.
  - exists c. split; [reflexivity|]. split; [apply Qle_refl|intros ? []].
  - unfold fgt at 1, flt, fle. 
    destruct (Qle_bool x c) eqn:E; simpl.
    + apply Qle_bool_iff in E. destruct (IH c) as (M & EM & H1 & H2).
      exists M. split; [exact EM|]. split; [exact H1|].
      intros y [<-|Hy]; [lra|auto].
    + assert (c < x).
      { apply Qnot_le_lt. intros H. apply Qle_bool_iff in H. congruence. }
      destruct (IH x) as (M & EM & H1 & H2).
      exists M. split; [exact EM|]. split; [lra|].
      intros y [<-|Hy]; [lra|auto].
Qed.

Lemma get_or_0_nonneg (metric : KeyFinancial -> option Q) d q :
  metric d = Some q -> 0 <= q ->
  exists x, get_or_0 metric d = Fin x /\ 0 <= x /\ x == q.
Proof.
  intros E Hq. unfold get_or_0. rewrite E. simpl.
  destruct (Qzero q) eqn:Z; simpl.
  - apply Qzero_iff in Z. exists 0. split; [reflexivity|]. split; lra.
  - exists q. split; [reflexivity|]. split; lra.
Qed.

Lemma unit_quotient (x D : Q) :
  0 <= x -> x <= D -> 0 < D ->
  in_unit_interval (fdiv (Fin x) (Fin D)) = true.
Proof.
  intros H0 H1 HD. unfold fdiv.
  assert (Qzero D = false) as ->.
  { apply not_true_is_false. rewrite Qzero_iff. lra. }
  unfold in_unit_interval, fle. apply andb_true_iff.
  split; apply Qle_bool_iff.
  - apply Qle_shift_div_l; [exact HD|lra].
  - apply Qle_shift_div_r; [exact HD|lra].
Qed.

Lemma normalized_in_unit (metric : KeyFinancial -> option Q)
      (l : list KeyFinancial) (d : KeyFinancial) :
  (forall d', In d' l -> exists q, metric d' = Some q /\ 0 <= q) ->
  In d l ->
  exists D, max_val l metric = Some D
            /\ in_unit_interval (fdiv (get_or_0 metric d) D) = true.
Proof.
  intros Hall Hd.
  assert (Hvals : exists xs,
             map (fun d' => fabs (get_or_0 metric d')) l = map Fin xs
             /\ forall d', In d' l ->
                  exists x, get_or_0 metric d' = Fin x /\ 0 <= x
                            /\ In (Qabs x) xs).
  { clear Hd. induction l as [|d0 l IH].
    - exists []. split; [reflexivity|]. intros ? [].
    - destruct IH as (xs & E & H); [intros; apply Hall; now right|].
      destruct (Hall d0 (or_introl eq_refl)) as (q & Eq & Hq).
      destruct (get_or_0_nonneg metric d0 q Eq Hq) as (x & Ex & Hx & _).
      exists (Qabs x :: xs). split.
      + simpl. now rewrite Ex, E.
      + intros d' [<-|Hd'].
        * exists x. repeat split; [exact Ex|exact Hx|now left].
        * destruct (H d' Hd') as (x' & E' & H0 & Hin).
          exists x'. repeat split; auto. now right. }
  destruct Hvals as (xs & E & H).
  destruct (H d Hd) as (x & Ex & Hx & Hin).
  unfold max_val. rewrite E.
  destruct xs as [|x0 xs]; [contradiction|]. simpl.
  destruct (fold_max_fin xs x0) as (M & EM & H1 & H2). rewrite EM.
  assert (HxM : x <= M).
  { assert (Habs : Qabs x <= M).
    { destruct Hin as [E0|Hin]; [rewrite <- E0; exact H1|apply H2, Hin]. }
    rewrite (Qabs_pos x Hx) in Habs. exact Habs. }
  rewrite Ex. eexists. split; [reflexivity|].
  unfold fgt, flt, fle.
  destruct (Qle_bool M 0) eqn:EM0; cbv beta iota delta [negb].
  - apply Qle_bool_iff in EM0. apply unit_quotient; lra.
  - assert (0 < M).
    { apply Qnot_le_lt. intros Hle. apply Qle_bool_iff in Hle. congruence. }
    apply unit_quotient; lra.
Qed.

Lemma nonneg_metric l (metric : KeyFinancial -> option Q) :
  forallb CompareNotions.nonneg_metrics l = true ->
  In metric radar_metrics ->
  forall d', In d' l -> exists q, metric d' = Some q /\ 0 <= q.
Proof.
  intros H Hm d' Hd'. rewrite forallb_forall in H. specialize (H d' Hd').
  unfold CompareNotions.nonneg_metrics in H. rewrite forallb_forall in H.
  specialize (H metric Hm). destruct (metric d') as [q|]; [|discriminate].
  exists q. split; [reflexivity|]. now apply Qle_bool_iff.
Qed.

Lemma radar_values_in_unit l d :
  forallb CompareNotions.nonneg_metrics l = true -> In d l ->
  exists tr, radar_values l d = Some tr
             /\ forallb in_unit_interval tr = true.
Proof.
  intros H Hd. unfold radar_values, radar_metrics. simpl map.
  destruct (normalized_in_unit sales l d) as (D1 & -> & U1);
    [apply (nonneg_metric l sales H); simpl; auto|exact Hd|].
  destruct (normalized_in_unit operating_income l d) as (D2 & -> & U2);
    [apply (nonneg_metric l operating_income H); simpl; auto|exact Hd|].
  destruct (normalized_in_unit net_income l d) as (D3 & -> & U3);
    [apply (nonneg_metric l net_income H); simpl; auto|exact Hd|].
  destruct (normalized_in_unit total_assets l d) as (D4 & -> & U4);
    [apply (nonneg_metric l total_assets H); simpl; tauto|exact Hd|].
  destruct (normalized_in_unit net_assets l d) as (D5 & -> & U5);
    [apply (nonneg_metric l net_assets H); simpl; tauto|exact Hd|].
  destruct (normalized_in_unit operating_cf l d) as (D6 & -> & U6);
    [apply (nonneg_metric l operating_cf H); simpl; tauto|exact Hd|].
  cbn [option_map all_some app firstn]. eexists. split; [reflexivity|].
  cbn [forallb]. now rewrite U1, U2, U3, U4, U5, U6.
Qed.

(** X13.  When every one of the six radar metrics of every latest row
    is present and not negative, every value of every trace lies between
    0 and 1. *)
Theorem radar_values_in_unit_interval (latest_data : list KeyFinancial)
        (traces : list (list f64)) :
  forallb CompareNotions.nonneg_metrics latest_data = true ->
  radar latest_data = Traces traces ->
  forallb (forallb in_unit_interval) traces = true.
Proof.
  intros H. unfold radar.
  destruct (negb (empty latest_data) && (2 <=? List.length latest_data)%nat);
    [|discriminate].
  destruct (all_some_map (radar_values latest_data)
              (fun tr => forallb in_unit_interval tr = true) latest_data)
    as (ts & E & _ & F).
  { intros d Hd. now apply radar_values_in_unit. }
  rewrite E. intros Ht. inversion Ht; subst.
  apply forallb_forall. now apply Forall_forall.
Qed.
End RadarMore.

Lemma radar_values_in_unit_interval_witness :
  forallb CompareNotions.nonneg_metrics [Compare.toyota; Samples.honda] = true
  /\ exists traces,
       Compare.radar [Compare.toyota; Samples.honda] = Compare.Traces traces
       /\ forallb (forallb Compare.in_unit_interval) traces = true.
Proof.
  split; [reflexivity|].
  eexists. split; [vm_compute; reflexivity|].
  apply (radar_values_in_unit_interval [Compare.toyota; Samples.honda]);
    [reflexivity|vm_compute; reflexivity].
Defined.

(** ** Company list: pagination *)

Section Pagination.
Import Search.
Context {A : Type}.

Lemma firstn_plus (a b : nat) (l : list A) :
  firstn (a + b) l = firstn a l ++ firstn b (skipn a l).
Proof.
  revert l. induction a as [|a IH]; intros l; [reflexivity|].
  destruct l as [|x l]; simpl; [now rewrite firstn_nil|]. now rewrite IH.
Qed.

Lemma page_df_chunk (l : list A) (i : nat) :
  page_df l (Z.of_nat (S i)) = firstn 50 (skipn (i * 50) l).
Proof.
  unfold page_df, iloc, page_size. cbv zeta.
  replace (Z.to_nat ((Z.of_nat (S i) - 1) * 50 + 50
                     - (Z.of_nat (S i) - 1) * 50)) with 50%nat by lia.
  replace (Z.to_nat ((Z.of_nat (S i) - 1) * 50)) with (i * 50)%nat by lia.
  reflexivity.
Qed.

Lemma chunks_concat (size : nat) (l : list A) (k : nat) :
  List.concat (map (fun i => firstn size (skipn (i * size) l)) (seq 0 k))
  = firstn (k * size) l.
Proof.
  induction k as [|k IH]; [reflexivity|].
  rewrite seq_S, map_app, concat_app, IH. simpl.
  rewrite app_nil_r. replace (size + k * size)%nat with (k * size + size)%nat
    by lia.
  symmetry. apply firstn_plus.
Qed.

Lemma total_pages_bounds (len : nat) :
  (1 <= len)%nat ->
  ((Z.to_nat (total_pages (Z.of_nat len)) - 1) * 50 < len
   <= Z.to_nat (total_pages (Z.of_nat len)) * 50)%nat.
Proof.
  intros H. unfold total_pages, page_size.
  assert (0 <= (Z.of_nat len - 1) / 50)%Z by (apply Z.div_pos; lia).
  rewrite Z.max_r by lia.
  pose proof (Z.div_mod (Z.of_nat len - 1) 50 ltac:(lia)) as D.
  pose proof (Z.mod_pos_bound (Z.of_nat len - 1) 50 ltac:(lia)) as B.
  lia.
Qed.

(** X14.  The pages of the company list cover it exactly: put one after
    the other, pages 1 to [total_pages] give the list back, so every
    company is on one page; and each of these pages holds between 1 and
    50 companies. *)
Theorem pagination_covers_list (all_companies : list A) :
  all_companies <> [] ->
  List.concat (map (page_df all_companies)
                   (page_numbers (Z.of_nat (List.length all_companies))))
  = all_companies
  /\ forall page,
       In page (page_numbers (Z.of_nat (List.length all_companies))) ->
       page_df all_companies page <> []
       /\ (List.length (page_df all_companies page) <= 50)%nat.
Proof.
  intros Hne.
  assert (Hlen : (1 <= List.length all_companies)%nat).
  { destruct all_companies; [congruence|simpl; lia]. }
  pose proof (total_pages_bounds _ Hlen) as [Hlo Hhi].
  unfold page_numbers.
  set (k := Z.to_nat (total_pages (Z.of_nat (List.length all_companies)))) in *.
  split.
  - rewrite <- seq_shift, !map_map.
    rewrite (map_ext _ (fun i => firstn 50 (skipn (i * 50) all_companies)))
      by (intros i; apply page_df_chunk).
    rewrite (chunks_concat 50). apply firstn_all2. lia.
  - intros page Hp. apply in_map_iff in Hp. destruct Hp as (j & <- & Hj).
    apply in_seq in Hj. destruct j as [|i]; [lia|].
    rewrite page_df_chunk. split; [|apply firstn_le_length].
    intros E. apply (f_equal (@List.length A)) in E.
    rewrite length_firstn, length_skipn in E.
    change (List.length (@nil A)) with O in E. lia.
Qed.
End Pagination.

(** ** Company page: the preselected company *)

Section DefaultIdx.
Import Company.

Lemma find_code_some p items i j :
  find_code p items i = Some j ->
  exists k, j = (i + k)%nat /\ option_map snd (nth_error items k) = Some p.
Proof.
  revert i. induction items as [|[label code] items IH]; intros i; simpl;
    [discriminate|].
  destruct (code =? p) eqn:E.
  - intros H. inversion H; subst. exists O. apply String.eqb_eq in E.
    split; [lia|simpl; now subst].
  - intros H. destruct (IH _ H) as (k & -> & Hk). exists (S k).
    split; [lia|exact Hk].
Qed.

Lemma find_code_none p items i :
  find_code p items i = None -> ~ In p (map snd items).
Proof.
  revert i. induction items as [|[label code] items IH]; intros i; simpl;
    [tauto|].
  destruct (code =? p) eqn:E; [discriminate|].
  apply String.eqb_neq in E. intros H [H1|H1]; [congruence|].
  exact (IH _ H H1).
Qed.

(** X15.  The select box starts on the first option whose code is the
    URL parameter; with no parameter, or a code that no option has, it
    starts on the first option.  The index is always a valid one. *)
Theorem default_idx_spec (options : list (string * string)) (param : string) :
  (options <> [] -> (default_idx options param < List.length options)%nat)
  /\ (param <> "" -> In param (map snd options) ->
      preselected options param = Some param)
  /\ (param = "" \/ ~ In param (map snd options) ->
      default_idx options param = O).
Proof.
  unfold preselected, default_idx. split; [|split].
  - intros Hne. destruct (negb (param =? "")).
    + destruct (find_code param options 0) as [j|] eqn:E.
      * destruct (find_code_some _ _ _ _ E) as (k & -> & Hk).
        destruct (nth_error options k) eqn:En; [|discriminate].
        simpl. apply nth_error_Some. congruence.
      * destruct options; [congruence|simpl; lia].
    + destruct options; [congruence|simpl; lia].
  - intros Hp Hin. apply String.eqb_neq in Hp. rewrite Hp. simpl.
    destruct (find_code param options 0) as [j|] eqn:E.
    + destruct (find_code_some _ _ _ _ E) as (k & -> & Hk). exact Hk.
    + exfalso. exact (find_code_none _ _ _ E Hin).
  - intros [->|Hn]; [reflexivity|].
    destruct (negb (param =? "")); [|reflexivity].
    destruct (find_code param options 0) as [j|] eqn:E; [|reflexivity].
    destruct (find_code_some _ _ _ _ E) as (k & -> & Hk).
    exfalso. apply Hn. destruct (nth_error options k) as [[l c]|] eqn:En;
      [|discriminate].
    simpl in Hk. inversion Hk; subst.
    apply nth_error_In in En. apply in_map_iff. exists (l, param). auto.
Qed.
End DefaultIdx.

Lemma pagination_covers_list_witness :
  seq 0 120 <> []
  /\ List.concat (map (Search.page_df (seq 0 120))
                      (Search.page_numbers (Z.of_nat (List.length (seq 0 120)))))
     = seq 0 120.
Proof.
  assert (H : seq 0 120 <> []) by discriminate.
  split; [exact H|]. exact (proj1 (pagination_covers_list (seq 0 120) H)).
Defined.

(** ** Dashboard: labels of the document types *)

Section TypeNames.
Import DbHelper.

Lemma dict_get_In key d v : dict_get key d = Some v -> In (key, v) d.
Proof.
  induction d as [|[k w] d IH]; simpl; [discriminate|].
  destruct (k =? key) eqn:E.
  - intros H. inversion H; subst. apply String.eqb_eq in E. subst. now left.
  - intros H. right. now apply IH.
Qed.

Lemma append_char_inj (s1 s2 : string) (c : ascii) :
  (s1 ++ String c "")%string = (s2 ++ String c "")%string -> s1 = s2.
Proof.
  revert s2. induction s1 as [|a s1 IH]; intros [|b s2]; simpl; intros H.
  - reflexivity.
  - inversion H as [[Ha Hs]]. destruct s2; discriminate Hs.
  - inversion H as [[Ha Hs]]. destruct s1; discriminate Hs.
  - inversion H; subst. f_equal. now apply IH.
Qed.

Lemma type_name_cases code :
  In (code, App.type_name code) DOC_TYPE_NAMES
  \/ App.type_name code = ("その他(" ++ code ++ ")")%string.
Proof.
  unfold App.type_name.
  destruct (dict_get code DOC_TYPE_NAMES) as [name|] eqn:E; [left|now right].
  now apply dict_get_In.
Qed.

(** X16.  Different document type codes get different labels, known
    codes their names and any other code a label that wraps the code, so
    the labels can index the breakdown chart without clashes. *)
Theorem type_name_injective (code1 code2 : string) :
  App.type_name code1 = App.type_name code2 -> code1 = code2.
Proof.
  intros H.
  destruct (type_name_cases code1) as [H1|H1];
    destruct (type_name_cases code2) as [H2|H2].
  - rewrite <- H in H2. revert H1 H2. generalize (App.type_name code1).
    intros n H1 H2. unfold DOC_TYPE_NAMES in H1, H2. simpl in H1, H2.
    repeat match goal with
           | H : _ \/ _ |- _ => destruct H as [H|H]
           | H : False |- _ => destruct H
           end;
      congruence.
  - rewrite H, H2 in H1. unfold DOC_TYPE_NAMES in H1. simpl in H1.
    repeat match goal with
           | H : _ \/ _ |- _ => destruct H as [H|H]
           | H : False |- _ => destruct H
           end;
      discriminate H1.
  - rewrite <- H, H1 in H2. unfold DOC_TYPE_NAMES in H2. simpl in H2.
    repeat match goal with
           | H : _ \/ _ |- _ => destruct H as [H|H]
           | H : False |- _ => destruct H
           end;
      discriminate H2.
  - rewrite H1, H2 in H. simpl in H. inversion H as [E].
    now apply append_char_inj in E.
Qed.
End TypeNames.

(** ** Text search: limits and the text page *)

Section TextSearchMore.
Import DbHelper.

Lemma firstn_prefix {A : Type} (n1 n2 : nat) (l : list A) :
  (n1 <= n2)%nat -> exists rest, firstn n2 l = firstn n1 l ++ rest.
Proof.
  intros H. replace n2 with (n1 + (n2 - n1))%nat by lia.
  rewrite firstn_plus. eauto.
Qed.

(** X17.  Raising the limit of a text search only adds rows at the end:
    for limits that fit a 64-bit signed integer and a keyword whose
    pattern SQLite accepts, the [period_end] and [sec_code] of the rows
    for a smaller limit are the beginning of those for a larger limit,
    with the same filters. *)
Theorem larger_limit_extends_result
        (table : list TextBlock) (sc sl kw pe : option string)
        (limit1 limit2 : Z) :
  (0 <= limit1 <= limit2)%Z ->
  fits_int64 limit2 = true ->
  pattern_fits kw = true ->
  exists rest,
    map (fun r => (tb_period_end r, tb_sec_code r))
        (search_text_blocks_rows table sc sl kw pe limit2)
    = map (fun r => (tb_period_end r, tb_sec_code r))
          (search_text_blocks_rows table sc sl kw pe limit1) ++ rest.
Proof.
  intros H _ _. rewrite !rows_as_filter. unfold sql_limit.
  assert ((limit1 <? 0)%Z = false) as -> by (apply Z.ltb_ge; lia).
  assert ((limit2 <? 0)%Z = false) as -> by (apply Z.ltb_ge; lia).
  destruct (firstn_prefix (Z.to_nat limit1) (Z.to_nat limit2)
              (sort_by text_order (filter (matches sc sl kw pe) table)))
    as [rest E]; [lia|].
  rewrite E, map_app. eauto.
Qed.

Section Page.
Variable strip : string -> string.

Lemma no_filter_rows table limit :
  search_text_blocks_rows table None None None None limit
  = sql_limit limit (sort_by text_order table).
Proof.
  rewrite rows_as_filter. unfold matches. simpl. now rewrite filter_all.
Qed.

(** X18.  On the text page, whose slider keeps the limit between 10 and
    200, at most [limit] blocks are listed; and the hint to set a filter
    appears only when no filter is set and the table has no rows at
    all, since a search without filters lists the first blocks of the
    table. *)
Theorem text_page_limited
        (table : list TextBlock)
        (sec_code_input selected_section keyword : string) (limit : Z) :
  (10 <= limit <= 200)%Z ->
  (Z.of_nat (List.length
               (TextBlocksPage.results strip table sec_code_input
                  selected_section keyword limit)) <= limit)%Z
  /\ (TextBlocksPage.text_page strip table sec_code_input selected_section
        keyword limit = TextBlocksPage.AskForFilter
      <-> strip sec_code_input = ""
          /\ selected_section = TextBlocksPage.all_sections
          /\ strip keyword = "" /\ table = []).
Proof.
  intros Hl. split.
  - unfold TextBlocksPage.results. rewrite rows_as_filter, sql_limit_length.
    assert ((limit <? 0)%Z = false) as -> by (apply Z.ltb_ge; lia). lia.
  - unfold TextBlocksPage.text_page, TextBlocksPage.results,
      TextBlocksPage.sec_code_param, TextBlocksPage.section_param,
      TextBlocksPage.keyword_param.
    destruct (String.eqb_spec (strip sec_code_input) "") as [E1|E1];
      destruct (String.eqb_spec selected_section TextBlocksPage.all_sections)
        as [E2|E2];
      destruct (String.eqb_spec (strip keyword) "") as [E3|E3];
      cbn [negb TextBlocksPage.is_none andb];
      try (split; [destruct (empty _); discriminate|tauto]).
    rewrite no_filter_rows.
    assert (Hlen := sql_limit_length limit (sort_by text_order table)).
    assert ((limit <? 0)%Z = false) as Hn by (apply Z.ltb_ge; lia).
    rewrite Hn, (Permutation_length (sort_by_perm text_order table)) in Hlen.
    destruct (sql_limit limit (sort_by text_order table)) as [|r rest];
      cbn [empty].
    + split; [intros _|reflexivity]. repeat split; auto.
      destruct table; [reflexivity|]. simpl in Hlen. lia.
    + split; [discriminate|]. intros (_ & _ & _ & ->). simpl in Hlen. lia.
Qed.
End Page.
End TextSearchMore.

Lemma type_name_injective_witness :
  App.type_name "120" = App.type_name "120" /\ "120" = "120".
Proof.
  split; [reflexivity|]. apply (type_name_injective "120" "120"). reflexivity.
Defined.

Lemma larger_limit_extends_result_witness :
  (0 <= 1 <= 50)%Z
  /\ DbHelper.fits_int64 50 = true
  /\ DbHelper.pattern_fits None = true
  /\ exists rest,
       map (fun r => (tb_period_end r, tb_sec_code r))
           (DbHelper.search_text_blocks_rows
              [DbHelper.sales_block; DbHelper.risk_block] None None None None 50)
       = map (fun r => (tb_period_end r, tb_sec_code r))
             (DbHelper.search_text_blocks_rows
                [DbHelper.sales_block; DbHelper.risk_block] None None None None 1)
         ++ rest.
Proof.
  split; [lia|]. split; [reflexivity|]. split; [reflexivity|].
  apply (larger_limit_extends_result
           [DbHelper.sales_block; DbHelper.risk_block] None None None None 1 50);
    [lia|reflexivity|reflexivity].
Defined.

Lemma text_page_limited_witness :
  (10 <= 50 <= 200)%Z
  /\ (Z.of_nat (List.length
                  (TextBlocksPage.results (fun s => s)
                     [DbHelper.sales_block; DbHelper.risk_block]
                     "7203" TextBlocksPage.all_sections "" 50)) <= 50)%Z.
Proof.
  split; [lia|].
  apply (text_page_limited (fun s => s)
           [DbHelper.sales_block; DbHelper.risk_block]
           "7203" TextBlocksPage.all_sections "" 50).
  lia.
Defined.

(** ** Screening page: the order of the displayed column *)

Section DisplayOrder.
Import Screening.

Lemma rint_mono (x y : Q) : x <= y -> (rint x <= rint y)%Z.
Proof.
  intros H. pose proof (Qfloor_resp_le x y H) as Hf.
  pose proof (Qfloor_le x) as X1. pose proof (Qlt_floor x) as X2.
  pose proof (Qfloor_le y) as Y1. pose proof (Qlt_floor y) as Y2.
  rewrite inject_Z_plus in X2, Y2. change (inject_Z 1) with 1 in X2, Y2.
  unfold rint.
  destruct (Z.eq_dec (Qfloor x) (Qfloor y)) as [E|E].
  - rewrite <- E in *. set (f := Qfloor x) in *.
    destruct (Qcompare_spec (x - inject_Z f) (1 # 2)) as [Cx|Cx|Cx];
      destruct (Qcompare_spec (y - inject_Z f) (1 # 2)) as [Cy|Cy|Cy];
      destruct (Z.even f); try lia; exfalso; lra.
  - destruct (Qcompare (x - inject_Z (Qfloor x)) (1 # 2));
      destruct (Qcompare (y - inject_Z (Qfloor y)) (1 # 2));
      destruct (Z.even (Qfloor x)); destruct (Z.even (Qfloor y)); lia.
Qed.

Lemma Qround1_mono (x y : Q) : x <= y -> Qround1 x <= Qround1 y.
Proof.
  intros H. unfold Qround1.
  assert (Hr : (rint (x * 10) <= rint (y * 10))%Z) by (apply rint_mono; lra).
  rewrite Zle_Qle in Hr. unfold Qdiv. change (/ 10) with (1 # 10). lra.
Qed.

Lemma fround1_desc a b :
  desc_nulls_last a b -> desc_nulls_last (fround1 a) (fround1 b).
Proof.
  unfold desc_nulls_last.
  destruct a as [|[|]|x], b as [|[|]|y]; simpl; auto.
  intros [H|[_ H]]; [discriminate|]. right. split; [reflexivity|].
  apply Qle_bool_iff. apply Qround1_mono. now apply Qle_bool_iff.
Qed.

Lemma StronglySorted_map {A B : Type} (R : B -> B -> Prop) (f : A -> B)
      (l : list A) :
  StronglySorted (fun a b => R (f a) (f b)) l -> StronglySorted R (map f l).
Proof.
  induction 1 as [|x l Hl IH Hx]; simpl; constructor; [exact IH|].
  apply Forall_map. exact Hx.
Qed.

(** X19.  Rounding for display does not disturb the order: down the
    table, the column the rows are sorted by, as displayed, never
    increases, and its nulls stay at the end. *)
Theorem displayed_column_stays_sorted
        (data : list KeyFinancial) (b : bounds) (s : sort_option) :
  StronglySorted desc_nulls_last
    (map (ScreeningDisplay.shown_value s) (output (screening_page data b s))).
Proof.
  apply StronglySorted_map.
  eapply StronglySorted_weaken; [|apply (output_sorted data b s)].
  intros r1 r2. destruct s; simpl; auto using fround1_desc.
Qed.
End DisplayOrder.

(** ** Company list and company search *)

Section CompanyList.
Import DbHelper.

Lemma key_eqb_eq a b : key_eqb a b = true <-> a = b.
Proof. unfold key_eqb. destruct (key_dec a b); split; congruence. Qed.

Lemma leb_code_total (a b : Company) :
  String.leb (c_sec_code a) (c_sec_code b) = true
  \/ String.leb (c_sec_code b) (c_sec_code a) = true.
Proof. apply String.leb_total. Qed.

Lemma company_groups_perm docs :
  Permutation (company_groups docs)
    (map (fun k =>
            mkCompany (fst k) (snd k) (List.length (group docs k))
                      (sql_max (map doc_file_date (group docs k))))
         (nodup key_dec (map company_key docs))).
Proof. apply sort_by_perm. Qed.

Lemma In_company_groups docs c :
  In c (company_groups docs)
  <-> exists d, In d docs
                /\ c = mkCompany (fst (company_key d)) (snd (company_key d))
                         (List.length (group docs (company_key d)))
                         (sql_max (map doc_file_date
                                       (group docs (company_key d)))).
Proof.
  split.
  - intros H. apply (Permutation_in _ (company_groups_perm docs)) in H.
    apply in_map_iff in H. destruct H as (k & <- & Hk).
    apply nodup_In, in_map_iff in Hk. destruct Hk as (d & <- & Hd). eauto.
  - intros (d & Hd & ->).
    apply (Permutation_in _ (Permutation_sym (company_groups_perm docs))).
    apply in_map_iff. exists (company_key d). split; [reflexivity|].
    apply nodup_In, in_map. exact Hd.
Qed.

Lemma group_sizes (docs : list Document) (ks : list (string * string)) :
  NoDup ks ->
  fold_right Nat.add O (map (fun k => List.length (group docs k)) ks)
  = List.length
      (filter (fun d => existsb (key_eqb (company_key d)) ks) docs).
Proof.
  induction 1 as [|k ks Hk _ IH]; simpl.
  - now rewrite filter_none.
  - rewrite IH. unfold group. clear IH.
    induction docs as [|d docs IHd]; simpl; [reflexivity|].
    destruct (key_eqb (company_key d) k) eqn:E; simpl.
    + assert (existsb (key_eqb (company_key d)) ks = false) as Hn.
      { apply not_true_is_false. intros Hex. apply existsb_exists in Hex.
        destruct Hex as (k' & Hk' & Ek'). apply key_eqb_eq in E, Ek'.
        congruence. }
      rewrite Hn. simpl. lia.
    + destruct (existsb (key_eqb (company_key d)) ks); simpl; lia.
Qed.

Lemma documents_of_group (documents : list Document) (code name : string) :
  documents_of documents code name
  = group (filter has_code documents) (code, name).
Proof.
  unfold documents_of, group. rewrite filter_andb. apply filter_ext.
  intros d. rewrite <- andb_assoc. f_equal.
  apply eq_true_iff_eq. rewrite andb_true_iff, key_eqb_eq.
  unfold company_key. rewrite !String.eqb_eq. split.
  - intros [-> ->]. reflexivity.
  - intros E. now inversion E.
Qed.

Lemma group_order_total (a b : Company) :
  group_order a b = true \/ group_order b a = true.
Proof.
  unfold group_order.
  rewrite (String.compare_antisym (c_sec_code a) (c_sec_code b)).
  destruct (String.compare (c_sec_code b) (c_sec_code a)); simpl; auto.
  apply String.leb_total.
Qed.

Lemma group_order_trans (a b c : Company) :
  group_order a b = true -> group_order b c = true -> group_order a c = true.
Proof.
  unfold group_order.
  destruct (String.compare (c_sec_code a) (c_sec_code b)) eqn:E1;
    try discriminate;
    destruct (String.compare (c_sec_code b) (c_sec_code c)) eqn:E2;
    try discriminate.
  - apply String_as_OT.cmp_eq in E1, E2. rewrite E1, E2.
    assert (String.compare (c_sec_code c) (c_sec_code c) = Eq) as ->
      by now apply String_as_OT.cmp_eq.
    apply leb_trans.
  - apply String_as_OT.cmp_eq in E1. rewrite E1, E2. reflexivity.
  - apply String_as_OT.cmp_eq in E2. rewrite <- E2, E1. reflexivity.
  - intros _ _.
    assert (String.compare (c_sec_code a) (c_sec_code c) = Lt) as ->.
    { apply String_as_OT.cmp_lt. eapply String_as_OT.lt_trans;
        apply String_as_OT.cmp_lt; eauto. }
    reflexivity.
Qed.

Lemma group_order_by_code (a b : Company) :
  group_order a b = true -> String.leb (c_sec_code a) (c_sec_code b) = true.
Proof.
  unfold group_order, String.leb.
  destruct (String.compare (c_sec_code a) (c_sec_code b));
    [reflexivity|reflexivity|discriminate].
Qed.

(** X20.  The company list has exactly one row for each pair of
    [sec_code] and [filer_name] that some document with a security code
    carries, and no other row; a row counts the documents of its pair
    (at least one) and shows their latest [file_date]; the counts add up
    to the number of documents with a security code; and the rows are in
    the order of [sec_code]. *)
Theorem company_list_counts_documents (documents : list Document) :
  let rows := get_company_list_rows documents in
  NoDup (map (fun c => (c_sec_code c, c_filer_name c)) rows)
  /\ (forall code name,
        (exists c, In c rows /\ c_sec_code c = code /\ c_filer_name c = name)
        <-> documents_of documents code name <> [])
  /\ (forall c, In c rows ->
        doc_count c
        = List.length (documents_of documents (c_sec_code c) (c_filer_name c))
        /\ latest_date c
           = sql_max (map doc_file_date
                          (documents_of documents (c_sec_code c)
                                        (c_filer_name c)))
        /\ (1 <= doc_count c)%nat)
  /\ fold_right Nat.add O (map doc_count rows)
     = List.length (filter has_code documents)
  /\ StronglySorted
       (fun a b => String.leb (c_sec_code a) (c_sec_code b) = true) rows.
Proof.
  cbv zeta. unfold get_company_list_rows.
  set (docs := filter has_code documents).
  set (ks := nodup key_dec (map company_key docs)).
  set (row := fun k : string * string =>
                mkCompany (fst k) (snd k) (List.length (group docs k))
                          (sql_max (map doc_file_date (group docs k)))).
  assert (P : Permutation (company_groups docs) (map row ks))
    by apply company_groups_perm.
  assert (Hrow : forall c, In c (company_groups docs) ->
            exists d, In d docs
              /\ company_key d = (c_sec_code c, c_filer_name c)
              /\ doc_count c = List.length (group docs (company_key d))
              /\ latest_date c
                 = sql_max (map doc_file_date (group docs (company_key d)))).
  { intros c Hc. apply In_company_groups in Hc.
    destruct Hc as (d & Hd & ->). exists d.
    cbn [c_sec_code c_filer_name doc_count latest_date].
    split; [exact Hd|]. split; [apply surjective_pairing|].
    split; reflexivity. }
  split; [|split; [|split; [|split]]].
  - eapply Permutation_NoDup; [apply Permutation_map, Permutation_sym, P|].
    rewrite map_map. unfold row. simpl.
    rewrite (map_ext _ (fun k => k)) by (intros [a b]; reflexivity).
    rewrite map_id. apply NoDup_nodup.
  - intros code name. rewrite documents_of_group. fold docs. split.
    + intros (c & Hc & <- & <-).
      destruct (Hrow c Hc) as (d & Hd & Hk & _). rewrite <- Hk.
      intros E.
      assert (Hin : In d (group docs (company_key d))).
      { apply filter_In. split; [exact Hd|]. now apply key_eqb_eq. }
      rewrite E in Hin. exact Hin.
    + intros Hne.
      destruct (group docs (code, name)) as [|d rest] eqn:E;
        [congruence|].
      assert (Hd : In d (group docs (code, name)))
        by (rewrite E; now left).
      apply filter_In in Hd. destruct Hd as [Hd Hk].
      apply key_eqb_eq in Hk.
      exists (row (company_key d)). split.
      * apply In_company_groups. exists d. split; [exact Hd|reflexivity].
      * rewrite Hk. split; reflexivity.
  - intros c Hc. destruct (Hrow c Hc) as (d & Hd & Hk & Hn & Hl).
    rewrite documents_of_group. fold docs. rewrite <- Hk.
    split; [exact Hn|]. split; [exact Hl|].
    rewrite Hn.
    assert (Hin : In d (group docs (company_key d))).
    { apply filter_In. split; [exact Hd|]. now apply key_eqb_eq. }
    destruct (group docs (company_key d)); [contradiction|simpl; lia].
  - assert (E : fold_right Nat.add O (map doc_count (company_groups docs))
                = fold_right Nat.add O (map doc_count (map row ks))).
    { clear -P. induction P; simpl; try lia. }
    rewrite E, map_map. unfold row. simpl.
    rewrite (group_sizes docs ks) by apply NoDup_nodup.
    f_equal. erewrite filter_ext_in; [apply filter_all|].
    intros d Hd. apply existsb_exists. exists (company_key d).
    split; [apply nodup_In, in_map, Hd|now apply key_eqb_eq].
  - eapply StronglySorted_weaken;
      [|apply (sort_by_sorted group_order group_order_total group_order_trans)].
    intros a b. apply group_order_by_code.
Qed.


End CompanyList.

